(** * The memory system of the deployment agent (src/core/memory.ts)

    A shallow embedding of the [MemorySystem] class: the generic key/value
    storage, the per-type success and failure pattern stores, the
    recommendation engine with its key-presence similarity, and the context
    store.  Module [JS] fixes the fragment of the host language the class
    relies on; the definitions after it follow memory.ts method by method;
    the theorems come last. *)

From Stdlib Require Import QArith.
From Stdlib Require Import Floats.SpecFloat.
From stdpp Require Import gmap strings list fin_maps pretty.

Set Warnings "-register-all".

(** ** The host language *)

Module JS.

(** Values of static type [any] that a configuration, a stored blob or a
    context entry can be: the two nullish values, booleans, numbers and
    strings, arrays and objects.  An object is the finite map from its own
    enumerable string keys to their values, which is all that
    [Object.keys] and [||] see of it; an array is dense; a number is an
    IEEE 754 double, given by its sign, mantissa and exponent; the
    characters of a string stand for its code units.  Symbols, big
    integers and objects with behaviour of their own (functions, promises
    and other thenables, proxies, accessors) are left out. *)
Inductive value : Type :=
  | Undefined
  | Null
  | Boolean (b : bool)
  | Number (x : spec_float)
  | String (s : string)
  | Array (elems : list value)
  | Object (props : gmap string value).

(** [ToBoolean]: what [if (v)] and [v || w] test. *)
Definition truthy (v : value) : bool :=
  match v with
  | Undefined | Null => false
  | Boolean b => b
  | Number (S754_zero _) | Number S754_nan => false
  | Number _ => true
  | String s => negb (String.eqb s "")
  | Array _ | Object _ => true
  end.

(** [a || b] on values. *)
Definition logical_or (a b : value) : value := if truthy a then a else b.

Inductive Error : Type :=
  | TypeError.

(** How a call ends: normally with a result, or with a thrown error.  For
    an [async] method this is how the promise it returns settles:
    fulfilled with the result, or rejected with the error. *)
Inductive completion (A : Type) : Type :=
  | Normal (a : A)
  | Throw (e : Error).
Arguments Normal {A} a.
Arguments Throw {A} e.

#[export] Instance completion_ret : MRet completion := @Normal.
#[export] Instance completion_bind : MBind completion :=
  λ A B f m, match m with Normal a => f a | Throw e => Throw e end.

(** The keys of a string or of an array are its indices in decimal. *)
Definition index_keys (n : nat) : list string := pretty <$> seq 0 n.

(** [Object.keys(v)]: throws on [null] and [undefined], is empty on
    booleans and numbers, and lists the own enumerable string keys
    otherwise.  The order of an object's keys is the one of the finite
    map, which is not the host's; nothing below depends on it. *)
Definition Object_keys (v : value) : completion (list string) :=
  match v with
  | Undefined | Null => Throw TypeError
  | Boolean _ | Number _ => Normal []
  | String s => Normal (index_keys (String.length s))
  | Array elems => Normal (index_keys (length elems))
  | Object props => Normal (map_to_list props).*1
  end.

(** [arr.includes(key)] on an array of strings. *)
Definition includes (arr : list string) (key : string) : bool :=
  bool_decide (key ∈ arr).

(** [Map.prototype.get]: the entry, or [undefined]. *)
Definition Map_get (m : gmap string value) (key : string) : value :=
  default Undefined (m !! key).

(** [for (const x of xs) body], with the variables the body updates
    threaded through as [acc]; a throw in the body ends the loop. *)
Fixpoint for_of {A S : Type} (xs : list A) (acc : S)
    (body : S → A → completion S) : completion S :=
  match xs with
  | [] => Normal acc
  | x :: xs' => acc' ← body acc x; for_of xs' acc' body
  end.

End JS.

Import JS.

(** ** memory.ts *)

(** A [Date] is its time value, the milliseconds since the epoch; [new
    Date()] reads the clock, so the methods that call it take the reading
    as the argument [now]. *)
Definition Date : Type := Z.
Bind Scope Z_scope with Date.

Module SuccessPattern.
Record t : Type := mk { type : string; config : value; timestamp : Date }.
End SuccessPattern.

Module FailurePattern.
Record t : Type :=
  mk { type : string; config : value; error : string; timestamp : Date }.
End FailurePattern.

(** A [number] that the class computes is a quotient of two array lengths.
    The host rounds it to the nearest double; the model keeps the exact
    rational.  Rounding is monotone and leaves 0, 1/2 and 1 fixed, and the
    lengths are far below 2^53, so a quotient under 1/2 stays under it:
    every comparison made below has the same outcome on the double. *)
Definition number : Type := Q.
Bind Scope Q_scope with number.

Module Recommendation.
Record t : Type :=
  mk { suggestion : string; confidence : number; based_on : list string }.
End Recommendation.

(** The private fields of the class.  Each array of patterns is created by
    the [[]] literal of the method that first records for a type and is
    stored under that one key only, so no two entries share an array and a
    [push] is an update of one entry. *)
Record MemorySystem : Type := {
  storage : gmap string value;
  successPatterns : gmap string (list SuccessPattern.t);
  failurePatterns : gmap string (list FailurePattern.t);
  context : gmap string value;
  initialized : bool
}.

(** The field initialisers: [new MemorySystem()]. *)
Definition new : MemorySystem :=
  {| storage := ∅; successPatterns := ∅; failurePatterns := ∅;
     context := ∅; initialized := false |}.

Definition calculateSimilarity (config1 config2 : value) : completion number :=
  keys1 ← Object_keys config1;
  keys2 ← Object_keys config2;
  let commonKeys := filter (λ key, includes keys2 key) keys1 in
  if (length keys1 =? 0) && (length keys2 =? 0) then Normal 1%Q
  else if (length keys1 =? 0) || (length keys2 =? 0) then Normal 0%Q
  else Normal (inject_Z (Z.of_nat (length commonKeys))
               / inject_Z (Z.of_nat (length keys1 `max` length keys2)))%Q.

Definition initialize (this : MemorySystem) : MemorySystem :=
  {| storage := storage this;
     successPatterns := successPatterns this;
     failurePatterns := failurePatterns this;
     context := context this;
     initialized := true |}.

Definition store (this : MemorySystem) (key : string) (data : value)
    : MemorySystem :=
  {| storage := <[key := data]> (storage this);
     successPatterns := successPatterns this;
     failurePatterns := failurePatterns this;
     context := context this;
     initialized := initialized this |}.

Definition retrieve (this : MemorySystem) (key : string) : completion value :=
  Normal (logical_or (Map_get (storage this) key) Null).

(** [this.successPatterns.get(type) || []]: an array is truthy, also the
    empty one, so the right operand is taken for a missing entry only. *)
Definition learnSuccess (this : MemorySystem) (type : string) (config : value)
    (now : Date) : MemorySystem :=
  let pattern := SuccessPattern.mk type config now in
  let existing := default [] (successPatterns this !! type) in
  let existing := existing ++ [pattern] in
  {| storage := storage this;
     successPatterns := <[type := existing]> (successPatterns this);
     failurePatterns := failurePatterns this;
     context := context this;
     initialized := initialized this |}.

Definition learnFailure (this : MemorySystem) (type : string) (config : value)
    (error : string) (now : Date) : MemorySystem :=
  let pattern := FailurePattern.mk type config error now in
  let existing := default [] (failurePatterns this !! type) in
  let existing := existing ++ [pattern] in
  {| storage := storage this;
     successPatterns := successPatterns this;
     failurePatterns := <[type := existing]> (failurePatterns this);
     context := context this;
     initialized := initialized this |}.

Definition getSuccessPatterns (this : MemorySystem) (type : string)
    : completion (list SuccessPattern.t) :=
  Normal (default [] (successPatterns this !! type)).

Definition getFailurePatterns (this : MemorySystem) (type : string)
    : completion (list FailurePattern.t) :=
  Normal (default [] (failurePatterns this !! type)).

Section Engine.

(** [Date.prototype.toISOString], a builtin of the host.  It is total on
    the time values a clock reading gives. *)
Variable toISOString : Date → string.

Definition getRecommendations (this : MemorySystem) (type : string)
    (partialConfig : value) : completion (list Recommendation.t) :=
  successPatterns ← getSuccessPatterns this type;
  for_of successPatterns [] (λ recommendations pattern,
    similarity ← calculateSimilarity partialConfig (SuccessPattern.config pattern);
    if Qle_bool (1 # 2) similarity then
      Normal (recommendations ++ [
        {| Recommendation.suggestion :=
             "Consider using configuration similar to successful " +:+ type;
           Recommendation.confidence := similarity;
           Recommendation.based_on :=
             ["Success pattern from "
              +:+ toISOString (SuccessPattern.timestamp pattern)] |} ])
    else Normal recommendations).

End Engine.

Definition storePattern (this : MemorySystem) (type : string) (pattern : value)
    (now : Date) : MemorySystem :=
  learnSuccess this type pattern now.

Definition retrievePattern (this : MemorySystem) (type : string)
    : completion (list value) :=
  patterns ← getSuccessPatterns this type;
  Normal (map (λ p, SuccessPattern.config p) patterns).

Definition storeLessons (this : MemorySystem) (type : string) (lessons : value)
    : MemorySystem :=
  store this ("lessons-" +:+ type) lessons.

Definition setContext (this : MemorySystem) (key : string) (value : value)
    : MemorySystem :=
  {| storage := storage this;
     successPatterns := successPatterns this;
     failurePatterns := failurePatterns this;
     context := <[key := value]> (context this);
     initialized := initialized this |}.

(** [result[key] = value] on the object that [getContext] builds from the
    literal [{}].  The assignment makes or overwrites an own property,
    except under the key [__proto__]: that one is the accessor which the
    object inherits from [Object.prototype], whose setter replaces the
    prototype when the value is an object or [null], does nothing
    otherwise, and in neither case makes an own property.  The prototype
    is not part of a [value]; a prototype set this way is taken to bring
    no setter and no read-only property of its own, as is the case for
    what literals and [JSON.parse] build, so that the assignments after it
    still make own properties. *)
Definition set_property (result : gmap string value) (key : string)
    (v : value) : gmap string value :=
  if decide (key = "__proto__") then result else <[key := v]> result.

(** The entries of the [Map] come once per key; their order is the one of
    the finite map, not the order of insertion, and the object built does
    not depend on it. *)
Definition getContext (this : MemorySystem) : completion value :=
  result ← for_of (map_to_list (context this)) ∅
              (λ result entry, Normal (set_property result entry.1 entry.2));
  Normal (Object result).

(** [key?: string]: the argument is a string or, when omitted,
    [undefined].  [if (key)] tests its truthiness: [undefined] is falsy and
    takes the [else] branch; a string takes the branch its own truthiness
    selects. *)
Definition clearContext (this : MemorySystem) (key : option string)
    : MemorySystem :=
  {| storage := storage this;
     successPatterns := successPatterns this;
     failurePatterns := failurePatterns this;
     context :=
       match key with
       | Some k => if truthy (String k) then delete k (context this) else ∅
       | None => ∅
       end;
     initialized := initialized this |}.

Definition isInitialized (this : MemorySystem) : bool := initialized this.

(** ** Vocabulary of the statements *)

(** The values [Object.keys] throws on. *)
Definition nullish (v : value) : bool :=
  match v with
  | Undefined | Null => true
  | _ => false
  end.

(** The similarity as a function of the two key sets alone. *)
Definition set_similarity (A B : gset string) : number :=
  if (size A =? 0) && (size B =? 0) then 1%Q
  else if (size A =? 0) || (size B =? 0) then 0%Q
  else (inject_Z (Z.of_nat (size (A ∩ B)))
        / inject_Z (Z.of_nat (size A `max` size B)))%Q.

(** The key set of a value that has one. *)
Definition key_set (v : value) : option (gset string) :=
  match Object_keys v with
  | Normal keys => Some (list_to_set keys)
  | Throw _ => None
  end.

#[export] Instance Qle_decision (x y : Q) : Decision (x <= y)%Q.
Proof.
  destruct (Qle_bool x y) eqn:E.
  - left. by apply Qle_bool_iff.
  - right. rewrite <- Qle_bool_iff. congruence.
Defined.

Section Pushed.

Variable toISOString : Date → string.

(** The object literal that the loop of [getRecommendations] pushes for a
    pattern whose similarity to the candidate is [similarity]. *)
Definition pushed (type : string) (pattern : SuccessPattern.t)
    (similarity : number) : Recommendation.t :=
  {| Recommendation.suggestion :=
       "Consider using configuration similar to successful " +:+ type;
     Recommendation.confidence := similarity;
     Recommendation.based_on :=
       ["Success pattern from "
        +:+ toISOString (SuccessPattern.timestamp pattern)] |}.

(** The body of that loop: what one round makes of the recommendations
    collected so far. *)
Definition loop_body (type : string) (partialConfig : value)
    (recommendations : list Recommendation.t) (pattern : SuccessPattern.t)
    : completion (list Recommendation.t) :=
  similarity ← calculateSimilarity partialConfig (SuccessPattern.config pattern);
  if Qle_bool (1 # 2) similarity then
    Normal (recommendations ++ [pushed type pattern similarity])
  else Normal recommendations.

End Pushed.

(** A call of a method that can change the state of the class; the methods
    that only read are functions of the state.  A caller that mutates an
    array or a configuration it obtained from the class is outside this
    vocabulary. *)
Inductive call : Type :=
  | Initialize
  | Store (key : string) (data : value)
  | LearnSuccess (type : string) (config : value) (now : Date)
  | LearnFailure (type : string) (config : value) (error : string) (now : Date)
  | StorePattern (type : string) (pattern : value) (now : Date)
  | StoreLessons (type : string) (lessons : value)
  | SetContext (key : string) (value : value)
  | ClearContext (key : option string).

Definition perform (this : MemorySystem) (c : call) : MemorySystem :=
  match c with
  | Initialize => initialize this
  | Store key data => store this key data
  | LearnSuccess type config now => learnSuccess this type config now
  | LearnFailure type config error now => learnFailure this type config error now
  | StorePattern type pattern now => storePattern this type pattern now
  | StoreLessons type lessons => storeLessons this type lessons
  | SetContext key value => setContext this key value
  | ClearContext key => clearContext this key
  end.

(** The state after a sequence of calls, the first call first. *)
Definition run (calls : list call) (this : MemorySystem) : MemorySystem :=
  foldl perform this calls.

(** The success record that a call stores for [type], if it stores one. *)
Definition recorded_success (type : string) (c : call)
    : option SuccessPattern.t :=
  match c with
  | LearnSuccess type' config now
  | StorePattern type' config now =>
      if decide (type' = type) then Some (SuccessPattern.mk type' config now)
      else None
  | _ => None
  end.

Definition recorded_failure (type : string) (c : call)
    : option FailurePattern.t :=
  match c with
  | LearnFailure type' config error now =>
      if decide (type' = type)
      then Some (FailurePattern.mk type' config error now)
      else None
  | _ => None
  end.

(** The value that a call puts under [key] in the generic storage, if it
    puts one there. *)
Definition stored (key : string) (c : call) : option value :=
  match c with
  | Store key' data => if decide (key' = key) then Some data else None
  | StoreLessons type lessons =>
      if decide ("lessons-" +:+ type = key) then Some lessons else None
  | _ => None
  end.

(** The calls that write to the context. *)
Definition writes_context (c : call) : bool :=
  match c with
  | SetContext _ _ | ClearContext _ => true
  | _ => false
  end.

Definition is_Initialize (c : call) : bool :=
  match c with
  | Initialize => true
  | _ => false
  end.

(** ** Sample data *)

(** A stand-in for the host's date formatting, for the samples only. *)
Definition sample_iso (d : Date) : string := pretty d.

Definition express : value :=
  Object {[ "framework" := String "express" ]}.

Definition express_postgres : value :=
  Object (<[ "framework" := String "express" ]> {[ "db" := String "postgres" ]}).

Definition replicas : value :=
  Object {[ "replicas" := Number (S754_finite false 3 0) ]}.

Definition sample_calls : list call :=
  [ LearnSuccess "web" express_postgres 1000;
    SetContext "region" (String "eu");
    LearnSuccess "web" replicas 2000;
    LearnFailure "web" replicas "timeout" 2500;
    StorePattern "web" express 3000;
    LearnSuccess "db" express_postgres 4000 ].

Definition sample : MemorySystem := run sample_calls new.

(** ** Properties *)

(** *** The keys of a value *)

Lemma index_keys_NoDup (n : nat) : NoDup (index_keys n).
Proof. apply (NoDup_fmap_2 _), NoDup_seq. Qed.

Lemma index_keys_length (n : nat) : length (index_keys n) = n.
Proof. unfold index_keys. by rewrite length_fmap, length_seq. Qed.

(** [Object.keys] never lists a key twice. *)
Lemma Object_keys_NoDup (v : value) (keys : list string) :
  Object_keys v = Normal keys → NoDup keys.
Proof.
  destruct v; simpl; intros [= <-].
  - apply NoDup_nil_2.
  - apply NoDup_nil_2.
  - apply index_keys_NoDup.
  - apply index_keys_NoDup.
  - apply NoDup_fst_map_to_list.
Qed.

Lemma keys_length_size (keys : list string) :
  NoDup keys → length keys = size (list_to_set keys : gset string).
Proof. intros Hnd. symmetry. by apply size_list_to_set. Qed.

Lemma keys_nil_empty (keys : list string) :
  keys = [] ↔ (list_to_set keys : gset string) = ∅.
Proof.
  split; [by intros ->|].
  destruct keys as [|k keys]; [done|]. set_solver.
Qed.

(** The common keys, counted as the code does, are the intersection of the
    two key sets. *)
Lemma commonKeys_length (keys1 keys2 : list string) :
  NoDup keys1 →
  length (filter (λ key, includes keys2 key) keys1)
  = size ((list_to_set keys1 : gset string) ∩ list_to_set keys2).
Proof.
  intros Hnd. apply Permutation_length, NoDup_Permutation.
  - by apply NoDup_filter.
  - apply NoDup_elements.
  - intros key. rewrite list_elem_of_filter, elem_of_elements,
      elem_of_intersection, !elem_of_list_to_set.
    unfold includes. rewrite bool_decide_spec. tauto.
Qed.

Lemma commonKeys_comm (keys1 keys2 : list string) :
  NoDup keys1 → NoDup keys2 →
  length (filter (λ key, includes keys2 key) keys1)
  = length (filter (λ key, includes keys1 key) keys2).
Proof.
  intros H1 H2. rewrite !commonKeys_length by done.
  by rewrite (comm_L (∩)).
Qed.

(** *** The similarity of two configurations *)

(** C1. For a candidate configuration [a] and a stored configuration [b]
    with key sets [A] and [B] (the sets of what [Object.keys] lists), the
    similarity is the number of shared keys divided by the larger of the
    two sizes; it is 1 when both sets are empty and 0 when exactly one of
    them is. *)
Theorem calculateSimilarity_key_ratio (a b : value) (keys1 keys2 : list string) :
  Object_keys a = Normal keys1 →
  Object_keys b = Normal keys2 →
  let A : gset string := list_to_set keys1 in
  let B : gset string := list_to_set keys2 in
  ∃ similarity : number,
    calculateSimilarity a b = Normal similarity
    ∧ (¬ (A = ∅ ∧ B = ∅) →
       (similarity == inject_Z (Z.of_nat (size (A ∩ B)))
                      / inject_Z (Z.of_nat (size A `max` size B)))%Q)
    ∧ (A = ∅ ∧ B = ∅ → similarity = 1%Q)
    ∧ (A = ∅ ∧ B ≠ ∅ ∨ A ≠ ∅ ∧ B = ∅ → similarity = 0%Q).
Proof.
  intros Ha Hb A B. unfold calculateSimilarity. rewrite Ha, Hb. simpl.
  pose proof (Object_keys_NoDup _ _ Ha) as Hnd1.
  pose proof (Object_keys_NoDup _ _ Hb) as Hnd2.
  assert (HA : keys1 = [] ↔ A = ∅) by apply keys_nil_empty.
  assert (HB : keys2 = [] ↔ B = ∅) by apply keys_nil_empty.
  assert (Hratio :
    (inject_Z (Z.of_nat (length (filter (λ key, includes keys2 key) keys1)))
     / inject_Z (Z.of_nat (length keys1 `max` length keys2)))%Q
    = (inject_Z (Z.of_nat (size (A ∩ B)))
       / inject_Z (Z.of_nat (size A `max` size B)))%Q).
  { by rewrite commonKeys_length, !keys_length_size. }
  destruct (Nat.eqb_spec (length keys1) 0) as [E1|E1],
           (Nat.eqb_spec (length keys2) 0) as [E2|E2]; simpl;
    rewrite ?length_zero_iff_nil in E1, E2;
    eexists; (split; [reflexivity|]).
  - split_and!; [tauto|done|tauto].
  - split_and!; [|tauto|done].
    intros _. rewrite <- Hratio. subst keys1. symmetry. apply Qmult_0_l.
  - split_and!; [|tauto|done].
    intros _. apply HB in E2. rewrite E2, (right_absorb_L ∅ (∩)), size_empty.
    symmetry. apply Qmult_0_l.
  - rewrite Hratio. split_and!; [done|tauto|tauto].
Qed.

(** A witness: the scenario of the specification, [{framework}] against
    [{framework, db}]. *)
Lemma calculateSimilarity_key_ratio_witness :
  let a := Object {[ "framework" := String "express" ]} in
  let b := Object (<[ "framework" := String "express" ]>
                     {[ "db" := String "postgres" ]}) in
  Object_keys a = Normal ["framework"]
  ∧ Object_keys b = Normal ["framework"; "db"]
  ∧ ∃ similarity : number,
      calculateSimilarity a b = Normal similarity ∧ (similarity == 1 # 2)%Q.
Proof.
  intros a b.
  assert (Ha : Object_keys a = Normal ["framework"]) by (by vm_compute).
  assert (Hb : Object_keys b = Normal ["framework"; "db"]) by (by vm_compute).
  split_and!; [done|done|].
  destruct (calculateSimilarity_key_ratio a b _ _ Ha Hb)
    as (similarity & Hs & Hratio & _).
  exists similarity. split; [done|].
  rewrite Hratio; [by vm_compute|].
  intros [H _]. by vm_compute in H.
Defined.

(** C9. The similarity is symmetric, also in how the call ends: it
    throws for [(a, b)] exactly when it throws for [(b, a)]. *)
Theorem calculateSimilarity_symmetric (a b : value) :
  calculateSimilarity a b = calculateSimilarity b a.
Proof.
  unfold calculateSimilarity.
  destruct (Object_keys a) as [keys1|[]] eqn:Ha,
           (Object_keys b) as [keys2|[]] eqn:Hb; simpl; try done.
  rewrite (commonKeys_comm keys1 keys2)
    by eauto using Object_keys_NoDup.
  rewrite (Nat.max_comm (length keys1)).
  by destruct (length keys1 =? 0), (length keys2 =? 0).
Qed.

Lemma calculateSimilarity_range (a b : value) (similarity : number) :
  calculateSimilarity a b = Normal similarity →
  (0 <= similarity <= 1)%Q.
Proof.
  unfold calculateSimilarity.
  destruct (Object_keys a) as [keys1|] eqn:Ha; [|done].
  destruct (Object_keys b) as [keys2|] eqn:Hb; [|done]. simpl.
  destruct (Nat.eqb_spec (length keys1) 0) as [E1|E1],
           (Nat.eqb_spec (length keys2) 0) as [E2|E2]; simpl;
    intros [= <-]; try done.
  set (common := filter _ keys1).
  assert (length common ≤ length keys1) by apply length_filter.
  assert (0 < inject_Z (Z.of_nat (length keys1 `max` length keys2)))%Q.
  { unfold Qlt. simpl. lia. }
  split.
  - apply Qle_shift_div_l; [done|]. rewrite Qmult_0_l.
    unfold Qle. simpl. lia.
  - apply Qle_shift_div_r; [done|]. rewrite Qmult_1_l.
    unfold Qle. simpl. lia.
Qed.

Lemma Object_keys_not_nullish (v : value) :
  nullish v = false → ∃ keys, Object_keys v = Normal keys.
Proof. destruct v; simpl; intros; by eauto. Qed.

Lemma calculateSimilarity_not_nullish (a b : value) :
  nullish a = false → nullish b = false →
  ∃ similarity, calculateSimilarity a b = Normal similarity.
Proof.
  intros [keys1 Ha]%Object_keys_not_nullish [keys2 Hb]%Object_keys_not_nullish.
  unfold calculateSimilarity. rewrite Ha, Hb. simpl.
  destruct (_ && _); [by eauto|]. destruct (_ || _); by eauto.
Qed.

(** *** The loop of [getRecommendations] *)

Section Loop.

Variable toISOString : Date → string.
Variables (type : string) (partialConfig : value).

#[local] Abbreviation body := (loop_body toISOString type partialConfig).

Lemma getRecommendations_unfold (this : MemorySystem) :
  getRecommendations toISOString this type partialConfig
  = for_of (default [] (successPatterns this !! type)) [] body.
Proof. reflexivity. Qed.

Lemma body_Normal (acc : list Recommendation.t) (p : SuccessPattern.t)
    (s : number) :
  calculateSimilarity partialConfig (SuccessPattern.config p) = Normal s →
  body acc p
  = Normal (if Qle_bool (1 # 2) s
            then acc ++ [pushed toISOString type p s] else acc).
Proof. unfold loop_body. intros ->. simpl. by destruct (Qle_bool _ _). Qed.

Lemma body_Throw (acc : list Recommendation.t) (p : SuccessPattern.t)
    (e : Error) :
  calculateSimilarity partialConfig (SuccessPattern.config p) = Throw e →
  body acc p = Throw e.
Proof. unfold loop_body. by intros ->. Qed.

(** With every similarity computed, the loop appends to what it has one
    recommendation per qualifying pattern, in the order of the patterns. *)
Lemma loop_qualifying (patterns : list SuccessPattern.t) (sims : list number)
    (acc : list Recommendation.t) :
  Forall2 (λ p s, calculateSimilarity partialConfig (SuccessPattern.config p)
                  = Normal s) patterns sims →
  for_of patterns acc body
  = Normal (acc ++ ((λ ps, pushed toISOString type ps.1 ps.2)
                    <$> filter (λ ps, (1 # 2 <= ps.2)%Q) (zip patterns sims))).
Proof.
  intros Hsims. revert acc.
  induction Hsims as [|p s patterns sims Hs _ IH]; intros acc; simpl.
  - by rewrite (right_id_L [] (++)).
  - rewrite (body_Normal _ _ _ Hs). simpl. rewrite IH, filter_cons. simpl.
    destruct (Qle_bool (1 # 2) s) eqn:E, (decide (1 # 2 <= s)%Q) as [D|D].
    + simpl. by rewrite <- (assoc_L (++)).
    + by apply Qle_bool_iff in E.
    + apply Qle_bool_iff in D. congruence.
    + done.
Qed.

(** The loop only ever appends. *)
Lemma loop_invariant (P : Recommendation.t → Prop)
    (patterns : list SuccessPattern.t) (acc recs : list Recommendation.t) :
  (∀ p s, calculateSimilarity partialConfig (SuccessPattern.config p) = Normal s →
          P (pushed toISOString type p s)) →
  Forall P acc →
  for_of patterns acc body = Normal recs →
  Forall P recs.
Proof.
  intros HP. revert acc.
  induction patterns as [|p patterns IH]; intros acc Hacc; simpl.
  - by intros [= <-].
  - destruct (calculateSimilarity partialConfig (SuccessPattern.config p))
      as [s|e] eqn:Hs.
    + rewrite (body_Normal _ _ _ Hs). simpl.
      destruct (Qle_bool (1 # 2) s); apply IH; [|done].
      apply Forall_app. split; [done|]. apply Forall_singleton. by apply HP.
    + by rewrite (body_Throw _ _ _ Hs).
Qed.

(** The loop ends normally when no [Object.keys] in it throws. *)
Lemma loop_returns (patterns : list SuccessPattern.t)
    (acc : list Recommendation.t) :
  nullish partialConfig = false →
  Forall (λ p, nullish (SuccessPattern.config p) = false) patterns →
  ∃ recs, for_of patterns acc body = Normal recs.
Proof.
  intros Hc Hall. revert acc.
  induction Hall as [|p patterns Hp _ IH]; intros acc; simpl; [by eauto|].
  destruct (calculateSimilarity_not_nullish _ _ Hc Hp) as [s Hs].
  rewrite (body_Normal _ _ _ Hs). simpl. apply IH.
Qed.

(** The loop throws in its first round when the candidate is [null] or
    [undefined]. *)
Lemma loop_throws (p : SuccessPattern.t) (patterns : list SuccessPattern.t)
    (acc : list Recommendation.t) :
  nullish partialConfig = true →
  for_of (p :: patterns) acc body = Throw TypeError.
Proof.
  intros Hc. simpl. rewrite (body_Throw _ _ TypeError); [done|].
  unfold calculateSimilarity. by destruct partialConfig.
Qed.

End Loop.

(** *** Recommendations *)

(** The similarity of the candidate to every stored pattern is computed
    when no [Object.keys] throws on the way. *)
Lemma similarities_computed (partialConfig : value)
    (patterns : list SuccessPattern.t) :
  patterns = [] ∨ nullish partialConfig = false →
  Forall (λ p, nullish (SuccessPattern.config p) = false) patterns →
  ∃ sims : list number,
    Forall2 (λ p s, calculateSimilarity partialConfig (SuccessPattern.config p)
                    = Normal s) patterns sims.
Proof.
  intros [->|Hc] Hall; [exists []; constructor|].
  induction Hall as [|p patterns Hp _ [sims IH]]; [exists []; constructor|].
  destruct (calculateSimilarity_not_nullish _ _ Hc Hp) as [s Hs].
  exists (s :: sims). by constructor.
Qed.

(** C2, as the specification has it, fails: with the records [express]
    and then [null] stored for the type and [express] as the candidate, the
    first record has similarity 1, yet the call returns no recommendation
    for it: [Object.keys] throws on the second record and the call ends
    with that [TypeError]. *)
Lemma getRecommendations_null_record_throws :
  let this := learnSuccess (learnSuccess new "web" express 1000) "web" Null 2000 in
  getSuccessPatterns this "web"
    = Normal [ SuccessPattern.mk "web" express 1000;
               SuccessPattern.mk "web" Null 2000 ]
  ∧ calculateSimilarity express express = Normal 1%Q
  ∧ (1 # 2 <= 1)%Q
  ∧ getRecommendations sample_iso this "web" express = Throw TypeError
  ∧ ¬ ∃ recs, getRecommendations sample_iso this "web" express = Normal recs.
Proof.
  intros this.
  assert (H : getRecommendations sample_iso this "web" express = Throw TypeError)
    by (vm_compute; reflexivity).
  split_and!; [by vm_compute|by vm_compute|by vm_compute|exact H|].
  intros [recs Hrecs]. rewrite H in Hrecs. discriminate.
Qed.

(** C2, as the code has it.  When no success pattern is stored for the
    type, or the candidate is neither [null] nor [undefined], and no
    stored pattern of the type has [null] or [undefined] as its
    configuration, every stored record has a similarity to the candidate
    and [getRecommendations] returns one recommendation per record whose
    similarity is at least 1/2, in the order in which the records are
    stored; its confidence is that similarity and its [based_on] is the
    one provenance string made from the timestamp of the record.  A record
    under 1/2 has no recommendation. *)
Theorem getRecommendations_qualifying_in_order
    (toISOString : Date → string) (this : MemorySystem) (type : string)
    (partialConfig : value) (patterns : list SuccessPattern.t) :
  getSuccessPatterns this type = Normal patterns →
  patterns = [] ∨ nullish partialConfig = false →
  Forall (λ p, nullish (SuccessPattern.config p) = false) patterns →
  ∃ (sims : list number) (recs : list Recommendation.t),
    Forall2 (λ p s, calculateSimilarity partialConfig (SuccessPattern.config p)
                    = Normal s) patterns sims
    ∧ getRecommendations toISOString this type partialConfig = Normal recs
    ∧ Forall2
        (λ r ps,
           Recommendation.confidence r = ps.2
           ∧ Recommendation.based_on r
             = ["Success pattern from "
                +:+ toISOString (SuccessPattern.timestamp ps.1)])
        recs
        (filter (λ ps, (1 # 2 <= ps.2)%Q) (zip patterns sims)).
Proof.
  intros [= Hpatterns] Hc Hall.
  destruct (similarities_computed partialConfig patterns Hc Hall) as [sims Hsims].
  exists sims. eexists. split; [exact Hsims|].
  rewrite getRecommendations_unfold, Hpatterns.
  rewrite (loop_qualifying _ _ _ _ _ _ Hsims). simpl.
  split; [reflexivity|].
  apply Forall2_fmap_l, Forall_Forall2_diag, Forall_forall. by intros [p s] _.
Qed.

Lemma getRecommendations_qualifying_in_order_witness :
  let patterns :=
    [ SuccessPattern.mk "web" express_postgres 1000;
      SuccessPattern.mk "web" replicas 2000;
      SuccessPattern.mk "web" express 3000 ] in
  getSuccessPatterns sample "web" = Normal patterns
  ∧ (patterns = [] ∨ nullish express = false)
  ∧ Forall (λ p, nullish (SuccessPattern.config p) = false) patterns
  ∧ ∃ (sims : list number) (recs : list Recommendation.t),
      Forall2 (λ p s, calculateSimilarity express (SuccessPattern.config p)
                      = Normal s) patterns sims
      ∧ getRecommendations sample_iso sample "web" express = Normal recs
      ∧ Forall2
          (λ r ps,
             Recommendation.confidence r = ps.2
             ∧ Recommendation.based_on r
               = ["Success pattern from "
                  +:+ sample_iso (SuccessPattern.timestamp ps.1)])
          recs
          (filter (λ ps, (1 # 2 <= ps.2)%Q) (zip patterns sims)).
Proof.
  intros patterns.
  assert (H1 : getSuccessPatterns sample "web" = Normal patterns)
    by (vm_compute; reflexivity).
  assert (H2 : patterns = [] ∨ nullish express = false)
    by (right; reflexivity).
  assert (H3 : Forall (λ p, nullish (SuccessPattern.config p) = false) patterns)
    by (repeat constructor).
  split_and!; [exact H1|exact H2|exact H3|].
  exact (getRecommendations_qualifying_in_order
           sample_iso sample "web" express patterns H1 H2 H3).
Defined.

(** C8. The confidence of every recommendation that [getRecommendations]
    returns lies between 0 and 1. *)
Theorem getRecommendations_confidence_range
    (toISOString : Date → string) (this : MemorySystem) (type : string)
    (partialConfig : value) (recs : list Recommendation.t) :
  getRecommendations toISOString this type partialConfig = Normal recs →
  Forall (λ r, (0 <= Recommendation.confidence r <= 1)%Q) recs.
Proof.
  rewrite getRecommendations_unfold.
  apply loop_invariant; [|by apply Forall_nil].
  intros p s Hs. simpl. by eapply calculateSimilarity_range.
Qed.

Lemma getRecommendations_confidence_range_witness :
  let recs :=
    [ Recommendation.mk
        "Consider using configuration similar to successful web" (1 # 2)
        ["Success pattern from 1000"];
      Recommendation.mk
        "Consider using configuration similar to successful web" 1
        ["Success pattern from 3000"] ] in
  getRecommendations sample_iso sample "web" express = Normal recs
  ∧ Forall (λ r, (0 <= Recommendation.confidence r <= 1)%Q) recs.
Proof.
  intros recs.
  assert (H : getRecommendations sample_iso sample "web" express = Normal recs)
    by (vm_compute; reflexivity).
  split; [exact H|].
  exact (getRecommendations_confidence_range
           sample_iso sample "web" express recs H).
Defined.

Lemma getRecommendations_nullish_candidate
    (toISOString : Date → string) (this : MemorySystem) (type : string)
    (partialConfig : value) (patterns : list SuccessPattern.t) :
  getSuccessPatterns this type = Normal patterns →
  patterns ≠ [] →
  nullish partialConfig = true →
  getRecommendations toISOString this type partialConfig = Throw TypeError.
Proof.
  intros [= Hpatterns] Hne Hc. rewrite getRecommendations_unfold, Hpatterns.
  destruct patterns as [|p patterns]; [done|]. by apply loop_throws.
Qed.

(** C4, as the specification has it, fails: with a success pattern stored
    for the type and [null] as the candidate, [Object.keys] throws in the
    first round of the loop and the call ends with that [TypeError]. *)
Lemma getRecommendations_null_candidate_throws :
  getSuccessPatterns sample "web" ≠ Normal []
  ∧ getRecommendations sample_iso sample "web" Null = Throw TypeError
  ∧ ¬ ∃ recs, getRecommendations sample_iso sample "web" Null = Normal recs.
Proof.
  assert (H : getRecommendations sample_iso sample "web" Null = Throw TypeError)
    by (vm_compute; reflexivity).
  split_and!; [by vm_compute|exact H|].
  intros [recs Hrecs]. rewrite H in Hrecs. discriminate.
Qed.

(** C4, as the code has it.  With no success pattern stored for the type,
    [getRecommendations] returns the empty sequence whatever the candidate
    is; with patterns stored, it returns normally when neither the
    candidate nor the configuration of a stored pattern is [null] or
    [undefined]. *)
Theorem getRecommendations_returns
    (toISOString : Date → string) (this : MemorySystem) (type : string)
    (partialConfig : value) :
  (getSuccessPatterns this type = Normal [] →
   getRecommendations toISOString this type partialConfig = Normal [])
  ∧ (∀ patterns,
       getSuccessPatterns this type = Normal patterns →
       nullish partialConfig = false →
       Forall (λ p, nullish (SuccessPattern.config p) = false) patterns →
       ∃ recs : list Recommendation.t,
         getRecommendations toISOString this type partialConfig = Normal recs).
Proof.
  split.
  - intros [= Hpatterns]. by rewrite getRecommendations_unfold, Hpatterns.
  - intros patterns [= Hpatterns] Hc Hall.
    rewrite getRecommendations_unfold, Hpatterns. by apply loop_returns.
Qed.

Lemma getRecommendations_returns_witness :
  (getSuccessPatterns sample "cache" = Normal []
   ∧ getRecommendations sample_iso sample "cache" Null = Normal [])
  ∧ (getSuccessPatterns sample "db"
       = Normal [SuccessPattern.mk "db" express_postgres 4000]
     ∧ nullish (Array []) = false
     ∧ Forall (λ p, nullish (SuccessPattern.config p) = false)
         [SuccessPattern.mk "db" express_postgres 4000]
     ∧ ∃ recs : list Recommendation.t,
         getRecommendations sample_iso sample "db" (Array []) = Normal recs).
Proof.
  pose proof (getRecommendations_returns sample_iso sample "cache" Null)
    as [Hnone _].
  pose proof (getRecommendations_returns sample_iso sample "db" (Array []))
    as [_ Hsome].
  assert (H0 : getSuccessPatterns sample "cache" = Normal [])
    by (vm_compute; reflexivity).
  assert (H1 : getSuccessPatterns sample "db"
               = Normal [SuccessPattern.mk "db" express_postgres 4000])
    by (vm_compute; reflexivity).
  assert (H2 : nullish (Array []) = false) by reflexivity.
  assert (H3 : Forall (λ p, nullish (SuccessPattern.config p) = false)
                 [SuccessPattern.mk "db" express_postgres 4000])
    by (repeat constructor).
  split; [split; [exact H0|exact (Hnone H0)]|].
  split_and!; [exact H1|exact H2|exact H3|exact (Hsome _ H1 H2 H3)].
Defined.

(** *** The pattern store *)

(** C3. [learnSuccess] appends: the success sequence of the type is then
    the sequence it was, every record kept in place, followed by the one
    new record, which holds the configuration. *)
Theorem learnSuccess_appends (this : MemorySystem) (type : string)
    (config : value) (now : Date) :
  ∃ previous : list SuccessPattern.t,
    getSuccessPatterns this type = Normal previous
    ∧ getSuccessPatterns (learnSuccess this type config now) type
      = Normal (previous ++ [SuccessPattern.mk type config now])
    ∧ SuccessPattern.config <$> last (previous ++ [SuccessPattern.mk type config now])
      = Some config.
Proof.
  eexists. split; [reflexivity|]. split.
  - unfold getSuccessPatterns, learnSuccess. simpl.
    by rewrite lookup_insert_eq.
  - by rewrite last_snoc.
Qed.

Lemma perform_successPatterns (this : MemorySystem) (c : call) (type : string) :
  default [] (successPatterns (perform this c) !! type)
  = default [] (successPatterns this !! type)
    ++ option_list (recorded_success type c).
Proof.
  destruct c; simpl; try (by rewrite (right_id_L [] (++)));
    (case_decide as Heq; simpl;
      [subst; by rewrite lookup_insert_eq
      |rewrite lookup_insert_ne by done; by rewrite (right_id_L [] (++))]).
Qed.

Lemma perform_failurePatterns (this : MemorySystem) (c : call) (type : string) :
  default [] (failurePatterns (perform this c) !! type)
  = default [] (failurePatterns this !! type)
    ++ option_list (recorded_failure type c).
Proof.
  destruct c; simpl; try (by rewrite (right_id_L [] (++))).
  case_decide as Heq; simpl.
  - subst. by rewrite lookup_insert_eq.
  - rewrite lookup_insert_ne by done. by rewrite (right_id_L [] (++)).
Qed.

Lemma omap_option_list {A B : Type} (f : A → option B) (x : A) (l : list A) :
  omap f (x :: l) = option_list (f x) ++ omap f l.
Proof. simpl. by destruct (f x). Qed.

Lemma run_successPatterns (calls : list call) (this : MemorySystem)
    (type : string) :
  default [] (successPatterns (run calls this) !! type)
  = default [] (successPatterns this !! type)
    ++ omap (recorded_success type) calls.
Proof.
  revert this. induction calls as [|c calls IH]; intros this.
  - simpl. by rewrite (right_id_L [] (++)).
  - unfold run in *. cbn [foldl].
    by rewrite IH, perform_successPatterns, omap_option_list, (assoc_L (++)).
Qed.

Lemma run_failurePatterns (calls : list call) (this : MemorySystem)
    (type : string) :
  default [] (failurePatterns (run calls this) !! type)
  = default [] (failurePatterns this !! type)
    ++ omap (recorded_failure type) calls.
Proof.
  revert this. induction calls as [|c calls IH]; intros this.
  - simpl. by rewrite (right_id_L [] (++)).
  - unfold run in *. cbn [foldl].
    by rewrite IH, perform_failurePatterns, omap_option_list, (assoc_L (++)).
Qed.

Lemma omap_all_None {A B : Type} (f : A → option B) (l : list A) :
  Forall (λ x, f x = None) l → omap f l = [].
Proof. induction 1 as [|x l Hx _ IH]; simpl; [done|]. by rewrite Hx. Qed.

(** C7. After any sequence of calls on a fresh [MemorySystem], the two
    getters return, for every type, all the records that the calls stored
    for that type and only those, the oldest first; for a type for which
    the calls stored nothing this is the empty sequence.  They end
    normally, with a sequence. *)
Theorem patterns_recorded_in_order (calls : list call) (type : string) :
  getSuccessPatterns (run calls new) type
    = Normal (omap (recorded_success type) calls)
  ∧ getFailurePatterns (run calls new) type
    = Normal (omap (recorded_failure type) calls)
  ∧ (Forall (λ c, recorded_success type c = None) calls →
     getSuccessPatterns (run calls new) type = Normal [])
  ∧ (Forall (λ c, recorded_failure type c = None) calls →
     getFailurePatterns (run calls new) type = Normal []).
Proof.
  assert (Hs : getSuccessPatterns (run calls new) type
               = Normal (omap (recorded_success type) calls)).
  { unfold getSuccessPatterns. by rewrite run_successPatterns. }
  assert (Hf : getFailurePatterns (run calls new) type
               = Normal (omap (recorded_failure type) calls)).
  { unfold getFailurePatterns. by rewrite run_failurePatterns. }
  split_and!; [done|done| |].
  - intros Hnone. by rewrite Hs, omap_all_None.
  - intros Hnone. by rewrite Hf, omap_all_None.
Qed.

Lemma patterns_recorded_in_order_witness :
  getSuccessPatterns sample "web"
    = Normal [ SuccessPattern.mk "web" express_postgres 1000;
               SuccessPattern.mk "web" replicas 2000;
               SuccessPattern.mk "web" express 3000 ]
  ∧ getFailurePatterns sample "web"
    = Normal [ FailurePattern.mk "web" replicas "timeout" 2500 ]
  ∧ Forall (λ c, recorded_success "cache" c = None) sample_calls
  ∧ getSuccessPatterns sample "cache" = Normal []
  ∧ Forall (λ c, recorded_failure "db" c = None) sample_calls
  ∧ getFailurePatterns sample "db" = Normal [].
Proof.
  pose proof (patterns_recorded_in_order sample_calls "web") as (Hs & Hf & _).
  pose proof (patterns_recorded_in_order sample_calls "cache") as (_ & _ & Hc & _).
  pose proof (patterns_recorded_in_order sample_calls "db") as (_ & _ & _ & Hd).
  assert (H1 : Forall (λ c, recorded_success "cache" c = None) sample_calls)
    by (repeat constructor).
  assert (H2 : Forall (λ c, recorded_failure "db" c = None) sample_calls)
    by (repeat constructor).
  split_and!; [exact Hs|exact Hf|exact H1|exact (Hc H1)|exact H2|exact (Hd H2)].
Defined.

(** C10. Recording a success for a type leaves alone every failure
    sequence, the success sequence of every other type, the generic
    storage and the context; recording a failure leaves alone every
    success sequence, the failure sequence of every other type, the
    generic storage and the context. *)
Theorem learn_frame (this : MemorySystem) (t : string) (c : value)
    (e : string) (now : Date) :
  (failurePatterns (learnSuccess this t c now) = failurePatterns this
   ∧ (∀ t', t' ≠ t →
        successPatterns (learnSuccess this t c now) !! t'
        = successPatterns this !! t')
   ∧ storage (learnSuccess this t c now) = storage this
   ∧ context (learnSuccess this t c now) = context this)
  ∧ (successPatterns (learnFailure this t c e now) = successPatterns this
     ∧ (∀ t', t' ≠ t →
          failurePatterns (learnFailure this t c e now) !! t'
          = failurePatterns this !! t')
     ∧ storage (learnFailure this t c e now) = storage this
     ∧ context (learnFailure this t c e now) = context this).
Proof.
  split; (split_and!; [done| |done|done]);
    intros t' Hne; simpl; by rewrite lookup_insert_ne.
Qed.

Lemma learn_frame_witness :
  (failurePatterns (learnSuccess sample "web" express 5000)
     = failurePatterns sample
   ∧ successPatterns (learnSuccess sample "web" express 5000) !! "db"
     = successPatterns sample !! "db"
   ∧ storage (learnSuccess sample "web" express 5000) = storage sample
   ∧ context (learnSuccess sample "web" express 5000) = context sample)
  ∧ (successPatterns (learnFailure sample "web" express "timeout" 5000)
       = successPatterns sample
     ∧ failurePatterns (learnFailure sample "db" express "timeout" 5000) !! "web"
       = failurePatterns sample !! "web"
     ∧ storage (learnFailure sample "web" express "timeout" 5000)
       = storage sample
     ∧ context (learnFailure sample "web" express "timeout" 5000)
       = context sample).
Proof.
  pose proof (learn_frame sample "web" express "timeout" 5000)
    as [(Hf & Hs & Hst & Hc) (Hs' & _ & Hst' & Hc')].
  pose proof (learn_frame sample "db" express "timeout" 5000)
    as [_ (_ & Hf' & _)].
  split; split_and!;
    [exact Hf|apply Hs; discriminate|exact Hst|exact Hc
    |exact Hs'|apply Hf'; discriminate|exact Hst'|exact Hc'].
Defined.

(** *** The generic storage *)

Lemma retrieve_store_truthy (this : MemorySystem) (k : string) (v : value) :
  truthy v = true → retrieve (store this k v) k = Normal v.
Proof.
  intros Hv. unfold retrieve, store, Map_get, logical_or. simpl.
  rewrite lookup_insert_eq. simpl. by rewrite Hv.
Qed.

Lemma retrieve_store_falsy (this : MemorySystem) (k : string) (v : value) :
  truthy v = false → retrieve (store this k v) k = Normal Null.
Proof.
  intros Hv. unfold retrieve, store, Map_get, logical_or. simpl.
  rewrite lookup_insert_eq. simpl. by rewrite Hv.
Qed.

Lemma retrieve_never_stored (this : MemorySystem) (k : string) :
  storage this !! k = None → retrieve this k = Normal Null.
Proof. intros Hk. unfold retrieve, Map_get, logical_or. by rewrite Hk. Qed.

(** C6 at the number zero: [store("retries", 0)] and then
    [retrieve("retries")] gives [null], not the stored 0.  The zero is
    falsy, so [||] takes its right operand. *)
Theorem retrieve_store_zero :
  let zero := Number (S754_zero false) in
  storage (store new "retries" zero) !! "retries" = Some zero
  ∧ retrieve (store new "retries" zero) "retries" = Normal Null.
Proof. split; by vm_compute. Qed.

(** *** The context store *)

Lemma clearContext_omitted (this : MemorySystem) :
  context (clearContext this None) = ∅.
Proof. reflexivity. Qed.

Lemma clearContext_key (this : MemorySystem) (k : string) :
  k ≠ "" → context (clearContext this (Some k)) = delete k (context this).
Proof.
  intros Hk. unfold clearContext. simpl.
  destruct (String.eqb_spec k ""); [done|reflexivity].
Qed.

Lemma clearContext_key_frame (this : MemorySystem) (k k' : string) :
  k ≠ "" → k' ≠ k →
  context (clearContext this (Some k)) !! k' = context this !! k'.
Proof. intros Hk Hne. rewrite clearContext_key by done. by apply lookup_delete_ne. Qed.

Lemma clearContext_key_absent (this : MemorySystem) (k : string) :
  k ≠ "" → context this !! k = None →
  context (clearContext this (Some k)) = context this.
Proof. intros Hk Hnone. rewrite clearContext_key by done. by apply delete_id. Qed.

(** C5 at the empty key: [clearContext("")] on a context that holds
    ["region"] removes that entry too, a key other than the one given.
    The empty string is falsy, so the call takes the branch of the omitted
    key. *)
Theorem clearContext_empty_key :
  context sample !! "region" = Some (String "eu")
  ∧ context (clearContext sample (Some "")) !! "region" = None
  ∧ context (clearContext sample (Some "")) = ∅.
Proof. split_and!; by vm_compute. Qed.

(** ** Further properties *)

(** *** More on the similarity *)

Lemma key_set_Some (v : value) (A : gset string) :
  key_set v = Some A ↔ ∃ keys, Object_keys v = Normal keys ∧ A = list_to_set keys.
Proof.
  unfold key_set. destruct (Object_keys v) as [keys|e]; split.
  - intros [= <-]. by eauto.
  - by intros (keys' & [= <-] & ->).
  - done.
  - by intros (keys' & ? & _).
Qed.

Lemma key_set_nullish (v : value) :
  key_set v = None ↔ nullish v = true.
Proof. unfold key_set. by destruct v. Qed.

Lemma key_set_not_nullish (v : value) :
  nullish v = false → ∃ A, key_set v = Some A.
Proof.
  intros [keys Hk]%Object_keys_not_nullish. unfold key_set. rewrite Hk. by eauto.
Qed.

(** The similarity is a function of the two key sets. *)
Lemma calculateSimilarity_sets (a b : value) (A B : gset string) :
  key_set a = Some A → key_set b = Some B →
  calculateSimilarity a b = Normal (set_similarity A B).
Proof.
  intros (keys1 & Ha & ->)%key_set_Some (keys2 & Hb & ->)%key_set_Some.
  pose proof (Object_keys_NoDup _ _ Ha) as Hnd1.
  pose proof (Object_keys_NoDup _ _ Hb) as Hnd2.
  unfold calculateSimilarity, set_similarity. rewrite Ha, Hb. simpl.
  rewrite commonKeys_length by done.
  rewrite (keys_length_size keys1), (keys_length_size keys2) by done.
  by destruct (size _ =? 0), (size _ =? 0).
Qed.

Lemma calculateSimilarity_Throw (a b : value) :
  calculateSimilarity a b = Throw TypeError ↔ nullish a = true ∨ nullish b = true.
Proof.
  split.
  - intros Hthrow.
    destruct (nullish a) eqn:Ha; [by left|].
    destruct (nullish b) eqn:Hb; [by right|].
    destruct (calculateSimilarity_not_nullish a b Ha Hb) as [s Hs]. congruence.
  - unfold calculateSimilarity.
    intros [Ha|Hb]; [by destruct a|].
    destruct (Object_keys a) as [keys1|[]]; [|done]. by destruct b.
Qed.

Lemma size_eqb_nonempty (A : gset string) : A ≠ ∅ → (size A =? 0) = false.
Proof.
  intros HA. apply Nat.eqb_neq. intros E.
  by apply size_empty_iff, leibniz_equiv in E.
Qed.

Lemma set_similarity_both_nonempty (A B : gset string) :
  A ≠ ∅ → B ≠ ∅ →
  set_similarity A B
  = (inject_Z (Z.of_nat (size (A ∩ B)))
     / inject_Z (Z.of_nat (size A `max` size B)))%Q.
Proof.
  intros HA HB. unfold set_similarity.
  by rewrite !size_eqb_nonempty.
Qed.

Lemma set_similarity_empty_l (B : gset string) :
  B ≠ ∅ → set_similarity ∅ B = 0%Q.
Proof.
  intros HB. unfold set_similarity.
  by rewrite size_empty, size_eqb_nonempty.
Qed.

Lemma set_similarity_empty_r (A : gset string) :
  A ≠ ∅ → set_similarity A ∅ = 0%Q.
Proof.
  intros HA. unfold set_similarity.
  by rewrite size_empty, size_eqb_nonempty.
Qed.

Lemma Qdiv_nat_eq_1 (c m : nat) :
  0 < m → (inject_Z (Z.of_nat c) / inject_Z (Z.of_nat m) == 1)%Q ↔ c = m.
Proof.
  intros Hm.
  assert (Hnz : ¬ (inject_Z (Z.of_nat m) == 0)%Q).
  { unfold Qeq. simpl. lia. }
  split.
  - intros H. apply (Qmult_inj_r _ _ (inject_Z (Z.of_nat m))) in H; [|done].
    unfold Qdiv in H. rewrite <- Qmult_assoc, (Qmult_comm (/ _)) in H.
    rewrite Qmult_inv_r, Qmult_1_r, Qmult_1_l in H by done.
    unfold Qeq in H. simpl in H. lia.
  - intros ->. by apply Qmult_inv_r.
Qed.

Lemma Qdiv_nat_eq_0 (c m : nat) :
  0 < m → (inject_Z (Z.of_nat c) / inject_Z (Z.of_nat m) == 0)%Q ↔ c = 0.
Proof.
  intros Hm.
  assert (Hnz : ¬ (inject_Z (Z.of_nat m) == 0)%Q).
  { unfold Qeq. simpl. lia. }
  split.
  - intros H. apply (Qmult_inj_r _ _ (inject_Z (Z.of_nat m))) in H; [|done].
    unfold Qdiv in H. rewrite <- Qmult_assoc, (Qmult_comm (/ _)) in H.
    rewrite Qmult_inv_r, Qmult_1_r, Qmult_0_l in H by done.
    unfold Qeq in H. simpl in H. lia.
  - intros ->. apply Qmult_0_l.
Qed.

Lemma set_similarity_one_iff (A B : gset string) :
  (set_similarity A B == 1)%Q ↔ A = B.
Proof.
  destruct (decide (A = ∅)) as [->|HA], (decide (B = ∅)) as [->|HB].
  - by vm_compute.
  - rewrite set_similarity_empty_l by done. split; [done|].
    intros H. by rewrite <- H in HB.
  - rewrite set_similarity_empty_r by done. split; [done|]. by intros ->.
  - rewrite set_similarity_both_nonempty by done.
    pose proof (size_eqb_nonempty A HA) as HsA%Nat.eqb_neq.
    rewrite Qdiv_nat_eq_1 by lia. split.
    + intros Hsize.
      pose proof (subseteq_size _ _ (intersection_subseteq_l A B)) as HlA.
      pose proof (subseteq_size _ _ (intersection_subseteq_r A B)) as HlB.
      assert (HAB : A ∩ B = A).
      { apply set_subseteq_size_eq; [apply intersection_subseteq_l|lia]. }
      assert (HBA : A ∩ B = B).
      { apply set_subseteq_size_eq; [apply intersection_subseteq_r|lia]. }
      congruence.
    + intros ->. rewrite (idemp_L (∩)). lia.
Qed.

Lemma set_similarity_zero_iff (A B : gset string) :
  (set_similarity A B == 0)%Q ↔ A ∩ B = ∅ ∧ ¬ (A = ∅ ∧ B = ∅).
Proof.
  destruct (decide (A = ∅)) as [->|HA], (decide (B = ∅)) as [->|HB].
  - split; [by vm_compute|]. by intros [_ []].
  - rewrite set_similarity_empty_l by done. split; [|done].
    intros _. split; [apply (left_absorb_L ∅ (∩))|]. by intros [_ ?].
  - rewrite set_similarity_empty_r by done. split; [|done].
    intros _. split; [apply (right_absorb_L ∅ (∩))|]. by intros [? _].
  - rewrite set_similarity_both_nonempty by done.
    pose proof (size_eqb_nonempty A HA) as HsA%Nat.eqb_neq.
    rewrite Qdiv_nat_eq_0 by lia.
    rewrite size_empty_iff. split.
    + intros Hempty. split; [by apply leibniz_equiv|]. by intros [? _].
    + by intros [-> _].
Qed.

Lemma key_set_Object (props : gmap string value) :
  key_set (Object props) = Some (dom props).
Proof. unfold key_set. simpl. f_equal. symmetry. apply leibniz_equiv, dom_alt. Qed.

(** X1. Two configurations that have key sets have similarity 1 exactly
    when the key sets are the same, whatever the values under the keys. *)
Theorem calculateSimilarity_one_iff_same_keys (a b : value) (A B : gset string) :
  key_set a = Some A → key_set b = Some B →
  ∃ similarity : number,
    calculateSimilarity a b = Normal similarity
    ∧ ((similarity == 1)%Q ↔ A = B).
Proof.
  intros HA HB. exists (set_similarity A B).
  split; [by apply calculateSimilarity_sets|apply set_similarity_one_iff].
Qed.

Lemma calculateSimilarity_one_iff_same_keys_witness :
  let a := Object (<[ "framework" := String "express" ]> {[ "db" := Null ]}) in
  key_set a = Some {[ "framework"; "db" ]}
  ∧ key_set express_postgres = Some {[ "framework"; "db" ]}
  ∧ ∃ similarity : number,
      calculateSimilarity a express_postgres = Normal similarity
      ∧ ((similarity == 1)%Q
         ↔ ({[ "framework"; "db" ]} : gset string) = {[ "framework"; "db" ]}).
Proof.
  intros a.
  assert (Ha : key_set a = Some {[ "framework"; "db" ]})
    by (vm_compute; reflexivity).
  assert (Hb : key_set express_postgres = Some {[ "framework"; "db" ]})
    by (vm_compute; reflexivity).
  split_and!; [exact Ha|exact Hb|].
  exact (calculateSimilarity_one_iff_same_keys a express_postgres _ _ Ha Hb).
Defined.

(** X2. Two configurations that have key sets have similarity 0 exactly
    when they share no key and at least one of them has a key. *)
Theorem calculateSimilarity_zero_iff_disjoint (a b : value) (A B : gset string) :
  key_set a = Some A → key_set b = Some B →
  ∃ similarity : number,
    calculateSimilarity a b = Normal similarity
    ∧ ((similarity == 0)%Q ↔ A ∩ B = ∅ ∧ ¬ (A = ∅ ∧ B = ∅)).
Proof.
  intros HA HB. exists (set_similarity A B).
  split; [by apply calculateSimilarity_sets|apply set_similarity_zero_iff].
Qed.

Lemma calculateSimilarity_zero_iff_disjoint_witness :
  key_set express = Some {[ "framework" ]}
  ∧ key_set replicas = Some {[ "replicas" ]}
  ∧ ∃ similarity : number,
      calculateSimilarity express replicas = Normal similarity
      ∧ ((similarity == 0)%Q
         ↔ ({[ "framework" ]} : gset string) ∩ {[ "replicas" ]} = ∅
           ∧ ¬ (({[ "framework" ]} : gset string) = ∅
                ∧ ({[ "replicas" ]} : gset string) = ∅)).
Proof.
  assert (Ha : key_set express = Some {[ "framework" ]})
    by (vm_compute; reflexivity).
  assert (Hb : key_set replicas = Some {[ "replicas" ]})
    by (vm_compute; reflexivity).
  split_and!; [exact Ha|exact Hb|].
  exact (calculateSimilarity_zero_iff_disjoint express replicas _ _ Ha Hb).
Defined.

(** X3. The similarity sees the keys only: replacing either configuration
    by one with the same key set, or by another value without one, gives
    the same outcome. *)
Theorem calculateSimilarity_keys_only (a a' b b' : value) :
  key_set a = key_set a' → key_set b = key_set b' →
  calculateSimilarity a b = calculateSimilarity a' b'.
Proof.
  intros Ha Hb.
  destruct (key_set a) as [A|] eqn:HA, (key_set b) as [B|] eqn:HB;
    symmetry in Ha, Hb.
  - by rewrite (calculateSimilarity_sets a b A B),
      (calculateSimilarity_sets a' b' A B).
  - apply key_set_nullish in HB, Hb.
    transitivity (@Throw number TypeError);
      [|symmetry]; apply calculateSimilarity_Throw; by right.
  - apply key_set_nullish in HA, Ha.
    transitivity (@Throw number TypeError);
      [|symmetry]; apply calculateSimilarity_Throw; by left.
  - apply key_set_nullish in HA, Ha.
    transitivity (@Throw number TypeError);
      [|symmetry]; apply calculateSimilarity_Throw; by left.
Qed.

Lemma calculateSimilarity_keys_only_witness :
  let a' := Object {[ "framework" := Number (S754_zero false) ]} in
  let b' := Object (<[ "framework" := Array [] ]> {[ "db" := Boolean true ]}) in
  key_set express = key_set a'
  ∧ key_set express_postgres = key_set b'
  ∧ calculateSimilarity express express_postgres = calculateSimilarity a' b'.
Proof.
  intros a' b'.
  assert (Ha : key_set express = key_set a') by (vm_compute; reflexivity).
  assert (Hb : key_set express_postgres = key_set b') by (vm_compute; reflexivity).
  split_and!; [exact Ha|exact Hb|].
  exact (calculateSimilarity_keys_only express a' express_postgres b' Ha Hb).
Defined.

(** X4. [calculateSimilarity] throws a [TypeError] exactly when one of its
    arguments is [null] or [undefined], and returns a number otherwise. *)
Theorem calculateSimilarity_throws_iff_nullish (a b : value) :
  (calculateSimilarity a b = Throw TypeError
   ↔ nullish a = true ∨ nullish b = true)
  ∧ ((∃ similarity, calculateSimilarity a b = Normal similarity)
     ↔ nullish a = false ∧ nullish b = false).
Proof.
  split; [apply calculateSimilarity_Throw|]. split.
  - intros [s Hs]. split; apply not_true_is_false; intros Hn.
    + assert (calculateSimilarity a b = Throw TypeError)
        by (apply calculateSimilarity_Throw; by left). congruence.
    + assert (calculateSimilarity a b = Throw TypeError)
        by (apply calculateSimilarity_Throw; by right). congruence.
  - intros [Ha Hb]. by apply calculateSimilarity_not_nullish.
Qed.

Lemma elem_of_index_keys (n : nat) (key : string) :
  key ∈ index_keys n ↔ ∃ i, key = pretty i ∧ i < n.
Proof.
  unfold index_keys. rewrite list_elem_of_fmap.
  split; intros (i & -> & Hi); exists i; (split; [done|]);
    apply elem_of_seq in Hi || apply elem_of_seq; lia.
Qed.

Lemma index_keys_intersection (n m : nat) :
  (list_to_set (index_keys n) : gset string) ∩ list_to_set (index_keys m)
  = list_to_set (index_keys (n `min` m)).
Proof.
  apply set_eq. intros key.
  rewrite elem_of_intersection, !elem_of_list_to_set, !elem_of_index_keys.
  split.
  - intros [(i & -> & Hi) (j & Hij & Hj)].
    apply (inj pretty) in Hij as <-. exists i. split; [done|lia].
  - intros (i & -> & Hi). split; exists i; (split; [done|lia]).
Qed.

Lemma index_keys_size (n : nat) :
  size (list_to_set (index_keys n) : gset string) = n.
Proof.
  rewrite size_list_to_set by apply index_keys_NoDup. apply index_keys_length.
Qed.

(** X5. Arrays and strings are compared by length alone: for two values
    whose keys are their indices, of lengths [n] and [m], both positive,
    the similarity is the smaller length over the larger. *)
Theorem calculateSimilarity_indexed (a b : value) (n m : nat) :
  Object_keys a = Normal (index_keys n) →
  Object_keys b = Normal (index_keys m) →
  0 < n → 0 < m →
  calculateSimilarity a b
  = Normal (inject_Z (Z.of_nat (n `min` m)) / inject_Z (Z.of_nat (n `max` m)))%Q.
Proof.
  intros Ha Hb Hn Hm.
  rewrite (calculateSimilarity_sets a b (list_to_set (index_keys n))
             (list_to_set (index_keys m)))
    by (apply key_set_Some; eauto).
  rewrite set_similarity_both_nonempty.
  - by rewrite index_keys_intersection, !index_keys_size.
  - intros E. apply (f_equal size) in E.
    rewrite index_keys_size, size_empty in E. lia.
  - intros E. apply (f_equal size) in E.
    rewrite index_keys_size, size_empty in E. lia.
Qed.

Lemma calculateSimilarity_indexed_witness :
  let a := Array [Null; Boolean true; String "x"] in
  let b := String "ab" in
  Object_keys a = Normal (index_keys 3)
  ∧ Object_keys b = Normal (index_keys 2)
  ∧ 0 < 3 ∧ 0 < 2
  ∧ calculateSimilarity a b
    = Normal (inject_Z (Z.of_nat (3 `min` 2)) / inject_Z (Z.of_nat (3 `max` 2)))%Q.
Proof.
  intros a b.
  assert (Ha : Object_keys a = Normal (index_keys 3)) by reflexivity.
  assert (Hb : Object_keys b = Normal (index_keys 2)) by reflexivity.
  assert (H3 : 0 < 3) by lia.
  assert (H2 : 0 < 2) by lia.
  split_and!; [exact Ha|exact Hb|exact H3|exact H2|].
  exact (calculateSimilarity_indexed a b 3 2 Ha Hb H3 H2).
Defined.

(** *** More on the recommendations *)

Lemma for_of_app {A S : Type} (xs ys : list A) (acc : S)
    (body : S → A → completion S) :
  for_of (xs ++ ys) acc body = acc' ← for_of xs acc body; for_of ys acc' body.
Proof.
  revert acc. induction xs as [|x xs IH]; intros acc; simpl; [done|].
  destruct (body acc x) as [acc'|e]; simpl; [apply IH|done].
Qed.

Section Pushes.

Variable toISOString : Date → string.
Variables (type : string) (partialConfig : value).

#[local] Abbreviation round := (loop_body toISOString type partialConfig).

(** What the loop has added when it ends normally: recommendations pushed
    for patterns it went over, each of similarity at least 1/2, and no
    more of them than patterns. *)
Lemma loop_added (patterns : list SuccessPattern.t)
    (acc recs : list Recommendation.t) :
  for_of patterns acc round = Normal recs →
  ∃ added,
    recs = acc ++ added
    ∧ length added ≤ length patterns
    ∧ Forall (λ r, ∃ p s,
                p ∈ patterns
                ∧ calculateSimilarity partialConfig (SuccessPattern.config p)
                  = Normal s
                ∧ (1 # 2 <= s)%Q
                ∧ r = pushed toISOString type p s) added.
Proof.
  revert acc. induction patterns as [|p patterns IH]; intros acc; simpl.
  - intros [= <-]. exists []. by rewrite (right_id_L [] (++)).
  - destruct (calculateSimilarity partialConfig (SuccessPattern.config p))
      as [s|e] eqn:Hs.
    + rewrite (body_Normal _ _ _ _ _ _ Hs). simpl. intros Hloop.
      apply IH in Hloop as (added & -> & Hlen & Hall).
      assert (Hall' : Forall (λ r, ∃ p' s',
                p' ∈ p :: patterns
                ∧ calculateSimilarity partialConfig (SuccessPattern.config p')
                  = Normal s'
                ∧ (1 # 2 <= s')%Q
                ∧ r = pushed toISOString type p' s') added).
      { eapply Forall_impl; [exact Hall|].
        intros r (p' & s' & Hin & ?). exists p', s'.
        split; [by apply list_elem_of_further|done]. }
      destruct (Qle_bool (1 # 2) s) eqn:E.
      * exists (pushed toISOString type p s :: added).
        split; [by rewrite <- (assoc_L (++))|]. split; [simpl; lia|].
        apply Forall_cons. split; [|done].
        exists p, s. split; [apply list_elem_of_here|].
        split; [done|]. split; [by apply Qle_bool_iff|done].
      * exists added. split; [done|]. split; [lia|done].
    + by rewrite (body_Throw _ _ _ _ _ _ Hs).
Qed.

Lemma loop_Throw (patterns : list SuccessPattern.t)
    (acc : list Recommendation.t) :
  Exists (λ p, nullish (SuccessPattern.config p) = true) patterns →
  for_of patterns acc round = Throw TypeError.
Proof.
  intros Hex. revert acc.
  induction Hex as [p patterns Hp|p patterns _ IH]; intros acc; simpl.
  - rewrite (body_Throw _ _ _ _ _ TypeError); [done|].
    apply calculateSimilarity_Throw. by right.
  - destruct (calculateSimilarity partialConfig (SuccessPattern.config p))
      as [s|e] eqn:Hs.
    + rewrite (body_Normal _ _ _ _ _ _ Hs). simpl. apply IH.
    + rewrite (body_Throw _ _ _ _ _ _ Hs). by destruct e.
Qed.

Lemma getRecommendations_learnSuccess (this : MemorySystem) (config : value)
    (now : Date) :
  getRecommendations toISOString (learnSuccess this type config now) type
    partialConfig
  = recs ← getRecommendations toISOString this type partialConfig;
    round recs (SuccessPattern.mk type config now).
Proof.
  rewrite !getRecommendations_unfold. simpl. rewrite lookup_insert_eq. simpl.
  rewrite for_of_app. destruct (for_of _ _ _) as [recs|e]; simpl; [|done].
  by destruct (round recs _).
Qed.

End Pushes.

(** X6. [getRecommendations] never returns more recommendations than
    there are success patterns stored for the type. *)
Theorem getRecommendations_length
    (toISOString : Date → string) (this : MemorySystem) (type : string)
    (partialConfig : value)
    (patterns : list SuccessPattern.t) (recs : list Recommendation.t) :
  getSuccessPatterns this type = Normal patterns →
  getRecommendations toISOString this type partialConfig = Normal recs →
  length recs ≤ length patterns.
Proof.
  intros [= Hpatterns]. rewrite getRecommendations_unfold, Hpatterns.
  intros (added & -> & Hlen & _)%loop_added. done.
Qed.

Lemma getRecommendations_length_witness :
  let patterns :=
    [ SuccessPattern.mk "web" express_postgres 1000;
      SuccessPattern.mk "web" replicas 2000;
      SuccessPattern.mk "web" express 3000 ] in
  let recs :=
    [ Recommendation.mk
        "Consider using configuration similar to successful web" (1 # 2)
        ["Success pattern from 1000"];
      Recommendation.mk
        "Consider using configuration similar to successful web" 1
        ["Success pattern from 3000"] ] in
  getSuccessPatterns sample "web" = Normal patterns
  ∧ getRecommendations sample_iso sample "web" express = Normal recs
  ∧ length recs ≤ length patterns.
Proof.
  intros patterns recs.
  assert (H1 : getSuccessPatterns sample "web" = Normal patterns)
    by (vm_compute; reflexivity).
  assert (H2 : getRecommendations sample_iso sample "web" express = Normal recs)
    by (vm_compute; reflexivity).
  split_and!; [exact H1|exact H2|].
  exact (getRecommendations_length sample_iso sample "web" express
           patterns recs H1 H2).
Defined.

(** X7. Every recommendation returned has a confidence of at least 1/2, is
    made from a success pattern stored for the type, whose similarity to
    the candidate is that confidence, and carries the one suggestion text
    that names the type. *)
Theorem getRecommendations_sound
    (toISOString : Date → string) (this : MemorySystem) (type : string)
    (partialConfig : value)
    (patterns : list SuccessPattern.t) (recs : list Recommendation.t) :
  getSuccessPatterns this type = Normal patterns →
  getRecommendations toISOString this type partialConfig = Normal recs →
  Forall (λ r,
    (1 # 2 <= Recommendation.confidence r)%Q
    ∧ Recommendation.suggestion r
      = "Consider using configuration similar to successful " +:+ type
    ∧ ∃ p, p ∈ patterns
           ∧ calculateSimilarity partialConfig (SuccessPattern.config p)
             = Normal (Recommendation.confidence r)
           ∧ Recommendation.based_on r
             = ["Success pattern from "
                +:+ toISOString (SuccessPattern.timestamp p)]) recs.
Proof.
  intros [= Hpatterns]. rewrite getRecommendations_unfold, Hpatterns.
  intros (added & -> & _ & Hall)%loop_added. simpl.
  eapply Forall_impl; [exact Hall|].
  intros r (p & s & Hin & Hs & Hle & ->). simpl.
  split; [done|]. split; [done|]. by exists p.
Qed.

Lemma getRecommendations_sound_witness :
  let patterns :=
    [ SuccessPattern.mk "web" express_postgres 1000;
      SuccessPattern.mk "web" replicas 2000;
      SuccessPattern.mk "web" express 3000 ] in
  let recs :=
    [ Recommendation.mk
        "Consider using configuration similar to successful web" (1 # 2)
        ["Success pattern from 1000"];
      Recommendation.mk
        "Consider using configuration similar to successful web" 1
        ["Success pattern from 3000"] ] in
  getSuccessPatterns sample "web" = Normal patterns
  ∧ getRecommendations sample_iso sample "web" express = Normal recs
  ∧ Forall (λ r,
      (1 # 2 <= Recommendation.confidence r)%Q
      ∧ Recommendation.suggestion r
        = "Consider using configuration similar to successful " +:+ "web"
      ∧ ∃ p, p ∈ patterns
             ∧ calculateSimilarity express (SuccessPattern.config p)
               = Normal (Recommendation.confidence r)
             ∧ Recommendation.based_on r
               = ["Success pattern from "
                  +:+ sample_iso (SuccessPattern.timestamp p)]) recs.
Proof.
  intros patterns recs.
  assert (H1 : getSuccessPatterns sample "web" = Normal patterns)
    by (vm_compute; reflexivity).
  assert (H2 : getRecommendations sample_iso sample "web" express = Normal recs)
    by (vm_compute; reflexivity).
  split_and!; [exact H1|exact H2|].
  exact (getRecommendations_sound sample_iso sample "web" express
           patterns recs H1 H2).
Defined.

(** X8. Recording a success extends the recommendations for its type by
    one round of the loop: what [getRecommendations] returned before, then
    the new record if its similarity to the candidate is at least 1/2; if
    the call threw before, it still throws. *)
Theorem getRecommendations_after_learnSuccess
    (toISOString : Date → string) (this : MemorySystem) (type : string)
    (config partialConfig : value) (now : Date) :
  getRecommendations toISOString (learnSuccess this type config now) type
    partialConfig
  = match getRecommendations toISOString this type partialConfig with
    | Normal recs =>
        match calculateSimilarity partialConfig config with
        | Normal similarity =>
            if decide (1 # 2 <= similarity)%Q
            then Normal (recs ++ [pushed toISOString type
                                    (SuccessPattern.mk type config now)
                                    similarity])
            else Normal recs
        | Throw e => Throw e
        end
    | Throw e => Throw e
    end.
Proof.
  rewrite getRecommendations_learnSuccess.
  destruct (getRecommendations _ _ _ _) as [recs|e]; simpl; [|done].
  destruct (calculateSimilarity partialConfig config) as [s|e] eqn:Hs.
  - rewrite (body_Normal _ _ _ _ (SuccessPattern.mk type config now) s Hs).
    destruct (Qle_bool (1 # 2) s) eqn:E, (decide (1 # 2 <= s)%Q) as [D|D];
      try done.
    + by apply Qle_bool_iff in E.
    + apply Qle_bool_iff in D. congruence.
  - by rewrite (body_Throw _ _ _ _ (SuccessPattern.mk type config now) e Hs).
Qed.

Lemma calculateSimilarity_self (a : value) :
  nullish a = false →
  ∃ similarity, calculateSimilarity a a = Normal similarity ∧ (similarity == 1)%Q.
Proof.
  intros [A HA]%key_set_not_nullish. exists (set_similarity A A).
  split; [by apply calculateSimilarity_sets|by apply set_similarity_one_iff].
Qed.

(** X9. A configuration that has just been recorded as a success is
    recommended for itself with full confidence: asking with the same
    configuration returns what was returned before and, last, the
    recommendation made from the new record, of confidence 1. *)
Theorem learnSuccess_recommended
    (toISOString : Date → string) (this : MemorySystem) (type : string)
    (config : value) (now : Date) (recs : list Recommendation.t) :
  nullish config = false →
  getRecommendations toISOString this type config = Normal recs →
  ∃ similarity : number,
    (similarity == 1)%Q
    ∧ getRecommendations toISOString (learnSuccess this type config now) type
        config
      = Normal (recs ++ [pushed toISOString type
                           (SuccessPattern.mk type config now) similarity]).
Proof.
  intros Hc Hrecs. destruct (calculateSimilarity_self config Hc) as (s & Hs & H1).
  exists s. split; [done|].
  rewrite getRecommendations_learnSuccess, Hrecs. simpl.
  rewrite (body_Normal _ _ _ _ (SuccessPattern.mk type config now) s Hs).
  assert (Qle_bool (1 # 2) s = true) as ->; [|done].
  apply Qle_bool_iff. by rewrite H1.
Qed.

Lemma learnSuccess_recommended_witness :
  let recs :=
    [ Recommendation.mk
        "Consider using configuration similar to successful web" (1 # 2)
        ["Success pattern from 1000"];
      Recommendation.mk
        "Consider using configuration similar to successful web" 1
        ["Success pattern from 3000"] ] in
  nullish express = false
  ∧ getRecommendations sample_iso sample "web" express = Normal recs
  ∧ ∃ similarity : number,
      (similarity == 1)%Q
      ∧ getRecommendations sample_iso (learnSuccess sample "web" express 5000)
          "web" express
        = Normal (recs ++ [pushed sample_iso "web"
                             (SuccessPattern.mk "web" express 5000) similarity]).
Proof.
  intros recs.
  assert (H1 : nullish express = false) by reflexivity.
  assert (H2 : getRecommendations sample_iso sample "web" express = Normal recs)
    by (vm_compute; reflexivity).
  split_and!; [exact H1|exact H2|].
  exact (learnSuccess_recommended sample_iso sample "web" express 5000 recs H1 H2).
Defined.

(** X10. One success recorded with [null] or [undefined] as its
    configuration disables the recommendations of its type for good:
    whatever is called afterwards and whatever the candidate,
    [getRecommendations] for that type throws a [TypeError]. *)
Theorem nullish_success_disables_recommendations
    (toISOString : Date → string) (this : MemorySystem) (type : string)
    (config : value) (now : Date) (calls : list call) (partialConfig : value) :
  nullish config = true →
  getRecommendations toISOString (run calls (learnSuccess this type config now))
    type partialConfig
  = Throw TypeError.
Proof.
  intros Hc. rewrite getRecommendations_unfold, run_successPatterns.
  apply loop_Throw. apply Exists_app. left.
  simpl. rewrite lookup_insert_eq. simpl.
  apply Exists_app. right. by apply Exists_cons_hd.
Qed.

Lemma nullish_success_disables_recommendations_witness :
  nullish Null = true
  ∧ getRecommendations sample_iso
      (run [LearnSuccess "web" express 6000; ClearContext None]
         (learnSuccess sample "web" Null 5000))
      "web" express
    = Throw TypeError.
Proof.
  assert (H : nullish Null = true) by reflexivity.
  split; [exact H|].
  exact (nullish_success_disables_recommendations sample_iso sample "web" Null
           5000 [LearnSuccess "web" express 6000; ClearContext None] express H).
Defined.

(** X11. [getRecommendations] throws, and then a [TypeError], exactly when
    a success pattern is stored for the type and the candidate or the
    configuration of one of the stored patterns is [null] or
    [undefined]. *)
Theorem getRecommendations_throws_iff
    (toISOString : Date → string) (this : MemorySystem) (type : string)
    (partialConfig : value) (patterns : list SuccessPattern.t) :
  getSuccessPatterns this type = Normal patterns →
  (getRecommendations toISOString this type partialConfig = Throw TypeError
   ↔ patterns ≠ []
     ∧ (nullish partialConfig = true
        ∨ Exists (λ p, nullish (SuccessPattern.config p) = true) patterns)).
Proof.
  intros [= Hpatterns]. rewrite getRecommendations_unfold, Hpatterns. split.
  - intros Hthrow. split; [by intros ->|].
    destruct (nullish partialConfig) eqn:Hc; [by left|right].
    destruct (decide (Exists (λ p, nullish (SuccessPattern.config p) = true)
                        patterns)) as [|Hnot]; [done|].
    apply not_Exists_Forall in Hnot; [|apply _].
    destruct (loop_returns toISOString type partialConfig patterns [] Hc)
      as [recs Hrecs]; [|congruence].
    eapply Forall_impl; [exact Hnot|]. intros p Hp. by apply not_true_is_false.
  - intros [Hne [Hc|Hex]].
    + destruct patterns as [|p patterns]; [done|]. by apply loop_throws.
    + by apply loop_Throw.
Qed.

Lemma getRecommendations_throws_iff_witness :
  let this := learnSuccess sample "web" Undefined 5000 in
  let patterns :=
    [ SuccessPattern.mk "web" express_postgres 1000;
      SuccessPattern.mk "web" replicas 2000;
      SuccessPattern.mk "web" express 3000;
      SuccessPattern.mk "web" Undefined 5000 ] in
  getSuccessPatterns this "web" = Normal patterns
  ∧ (getRecommendations sample_iso this "web" express = Throw TypeError
     ↔ patterns ≠ []
       ∧ (nullish express = true
          ∨ Exists (λ p, nullish (SuccessPattern.config p) = true) patterns)).
Proof.
  intros this patterns.
  assert (H : getSuccessPatterns this "web" = Normal patterns)
    by (vm_compute; reflexivity).
  split; [exact H|].
  exact (getRecommendations_throws_iff sample_iso this "web" express patterns H).
Defined.

(** X12. The recommendations for a type depend on nothing but the success
    patterns of that type: calls that record no success for it (failures,
    successes of other types, stored blobs and lessons, context changes,
    initialisation) leave what [getRecommendations] returns, or throws,
    the same. *)
Theorem getRecommendations_frame
    (toISOString : Date → string) (this : MemorySystem) (type : string)
    (partialConfig : value) (calls : list call) :
  Forall (λ c, recorded_success type c = None) calls →
  getRecommendations toISOString (run calls this) type partialConfig
  = getRecommendations toISOString this type partialConfig.
Proof.
  intros Hnone. rewrite !getRecommendations_unfold, run_successPatterns.
  by rewrite omap_all_None, (right_id_L [] (++)).
Qed.

Lemma getRecommendations_frame_witness :
  let calls :=
    [ LearnFailure "web" express "crash" 5000;
      LearnSuccess "db" express 5100;
      Store "web" express;
      StoreLessons "web" (String "pin versions");
      SetContext "web" express;
      ClearContext None;
      Initialize ] in
  Forall (λ c, recorded_success "web" c = None) calls
  ∧ getRecommendations sample_iso (run calls sample) "web" express
    = getRecommendations sample_iso sample "web" express.
Proof.
  intros calls.
  assert (H : Forall (λ c, recorded_success "web" c = None) calls)
    by (repeat constructor).
  split; [exact H|].
  exact (getRecommendations_frame sample_iso sample "web" express calls H).
Defined.

(** *** More on the pattern store *)

(** X13. [learnFailure] appends: the failure sequence of the type is then
    the sequence it was followed by the one new record, which holds the
    configuration and the error. *)
Theorem learnFailure_appends (this : MemorySystem) (type : string)
    (config : value) (error : string) (now : Date) :
  ∃ previous : list FailurePattern.t,
    getFailurePatterns this type = Normal previous
    ∧ getFailurePatterns (learnFailure this type config error now) type
      = Normal (previous ++ [FailurePattern.mk type config error now]).
Proof.
  eexists. split; [reflexivity|].
  unfold getFailurePatterns, learnFailure. simpl. by rewrite lookup_insert_eq.
Qed.

(** X14. [retrievePattern] gives back what [storePattern] stored: the
    configurations retrieved before, then the new one, whatever value it
    is, falsy ones and [null] included. *)
Theorem retrievePattern_storePattern (this : MemorySystem) (type : string)
    (pattern : value) (now : Date) :
  ∃ previous : list value,
    retrievePattern this type = Normal previous
    ∧ retrievePattern (storePattern this type pattern now) type
      = Normal (previous ++ [pattern]).
Proof.
  eexists. split; [reflexivity|].
  unfold retrievePattern, storePattern, getSuccessPatterns, learnSuccess. simpl.
  rewrite lookup_insert_eq. simpl. by rewrite map_app.
Qed.

(** X15. After any sequence of calls on a fresh [MemorySystem], every
    record returned for a type carries that type in its own [type]
    field, in both stores. *)
Theorem patterns_type_field (calls : list call) (type : string) :
  (∃ successes,
     getSuccessPatterns (run calls new) type = Normal successes
     ∧ Forall (λ p, SuccessPattern.type p = type) successes)
  ∧ (∃ failures,
       getFailurePatterns (run calls new) type = Normal failures
       ∧ Forall (λ p, FailurePattern.type p = type) failures).
Proof.
  split; eexists; (split; [reflexivity|]).
  - rewrite run_successPatterns. simpl.
    apply Forall_forall. intros p (c & Hc & Hp)%list_elem_of_omap.
    destruct c; simpl in Hp; try done; by case_decide; simplify_eq.
  - rewrite run_failurePatterns. simpl.
    apply Forall_forall. intros p (c & Hc & Hp)%list_elem_of_omap.
    destruct c; simpl in Hp; try done; by case_decide; simplify_eq.
Qed.

(** X16. No call removes, replaces or reorders a stored pattern: whatever
    is called, the sequence a getter returned before is a prefix of the
    sequence it returns after. *)
Theorem patterns_append_only (this : MemorySystem) (calls : list call)
    (type : string)
    (successes successes' : list SuccessPattern.t)
    (failures failures' : list FailurePattern.t) :
  getSuccessPatterns this type = Normal successes →
  getSuccessPatterns (run calls this) type = Normal successes' →
  getFailurePatterns this type = Normal failures →
  getFailurePatterns (run calls this) type = Normal failures' →
  successes `prefix_of` successes' ∧ failures `prefix_of` failures'.
Proof.
  unfold getSuccessPatterns, getFailurePatterns.
  rewrite run_successPatterns, run_failurePatterns.
  intros [= <-] [= <-] [= <-] [= <-]. split; by eexists.
Qed.

Lemma patterns_append_only_witness :
  let calls :=
    [ ClearContext None; LearnSuccess "web" express 5000;
      LearnFailure "web" express "crash" 6000; ClearContext (Some "") ] in
  let successes :=
    [ SuccessPattern.mk "web" express_postgres 1000;
      SuccessPattern.mk "web" replicas 2000;
      SuccessPattern.mk "web" express 3000 ] in
  let failures := [ FailurePattern.mk "web" replicas "timeout" 2500 ] in
  let successes' := successes ++ [ SuccessPattern.mk "web" express 5000 ] in
  let failures' := failures ++ [ FailurePattern.mk "web" express "crash" 6000 ] in
  getSuccessPatterns sample "web" = Normal successes
  ∧ getSuccessPatterns (run calls sample) "web" = Normal successes'
  ∧ getFailurePatterns sample "web" = Normal failures
  ∧ getFailurePatterns (run calls sample) "web" = Normal failures'
  ∧ successes `prefix_of` successes' ∧ failures `prefix_of` failures'.
Proof.
  intros calls successes failures successes' failures'.
  assert (H1 : getSuccessPatterns sample "web" = Normal successes)
    by (vm_compute; reflexivity).
  assert (H2 : getSuccessPatterns (run calls sample) "web" = Normal successes')
    by (vm_compute; reflexivity).
  assert (H3 : getFailurePatterns sample "web" = Normal failures)
    by (vm_compute; reflexivity).
  assert (H4 : getFailurePatterns (run calls sample) "web" = Normal failures')
    by (vm_compute; reflexivity).
  split_and!; [exact H1|exact H2|exact H3|exact H4| |];
    apply (patterns_append_only sample calls "web" _ _ _ _ H1 H2 H3 H4).
Defined.

(** *** More on the generic storage *)

(** [retrieve] in terms of the entry of the key. *)
Lemma retrieve_lookup (this : MemorySystem) (k : string) :
  retrieve this k
  = Normal (match storage this !! k with
            | Some v => if truthy v then v else Null
            | None => Null
            end).
Proof. unfold retrieve, Map_get, logical_or. by destruct (storage this !! k). Qed.

Lemma perform_storage (this : MemorySystem) (c : call) (key : string) :
  storage (perform this c) !! key
  = match stored key c with
    | Some v => Some v
    | None => storage this !! key
    end.
Proof.
  destruct c; simpl; try done; case_decide as Hk; subst;
    by rewrite ?lookup_insert_eq, ?lookup_insert_ne.
Qed.

Lemma last_omap_cons {A B : Type} (f : A → option B) (x : A) (l : list A) :
  last (omap f (x :: l))
  = match last (omap f l) with
    | Some y => Some y
    | None => f x
    end.
Proof.
  simpl. destruct (f x) as [y|]; [|by destruct (last _)].
  by rewrite last_cons.
Qed.

Lemma run_storage (calls : list call) (this : MemorySystem) (key : string) :
  storage (run calls this) !! key
  = match last (omap (stored key) calls) with
    | Some v => Some v
    | None => storage this !! key
    end.
Proof.
  revert this. induction calls as [|c calls IH]; intros this; [done|].
  unfold run in *. cbn [foldl]. rewrite IH, last_omap_cons, perform_storage.
  by destruct (last _), (stored key c).
Qed.

(** X17. [retrieve] after [store]: under the key stored to, the value if
    it is truthy and [null] if it is falsy; under any other key, what
    [retrieve] returned before. *)
Theorem retrieve_store (this : MemorySystem) (k k' : string) (v : value) :
  retrieve (store this k v) k'
  = if decide (k' = k) then Normal (if truthy v then v else Null)
    else retrieve this k'.
Proof.
  rewrite !retrieve_lookup, (perform_storage this (Store k v)). simpl.
  by repeat case_decide; subst.
Qed.

(** X18. [retrieve] never throws, and what it returns is [null] or a
    truthy value: never [undefined], [false], a zero, [NaN] or the empty
    string. *)
Theorem retrieve_null_or_truthy (this : MemorySystem) (k : string) :
  ∃ v : value, retrieve this k = Normal v ∧ (v = Null ∨ truthy v = true).
Proof.
  unfold retrieve, logical_or. eexists. split; [reflexivity|].
  destruct (truthy (Map_get (storage this) k)) eqn:E; by eauto.
Qed.

(** X19. The lessons of a type come back under the key ["lessons-"]
    followed by the type, truthy ones as they are and falsy ones as
    [null], and storing the lessons of one type leaves those of every
    other type as they were. *)
Theorem retrieve_storeLessons (this : MemorySystem) (type type' : string)
    (lessons : value) :
  retrieve (storeLessons this type lessons) ("lessons-" +:+ type')
  = if decide (type' = type) then Normal (if truthy lessons then lessons else Null)
    else retrieve this ("lessons-" +:+ type').
Proof.
  rewrite !retrieve_lookup, (perform_storage this (StoreLessons type lessons)).
  simpl. repeat case_decide; subst; try done.
  by match goal with H : _ +:+ _ = _ +:+ _ |- _ => apply (inj _) in H end.
Qed.

(** X20. The last write wins, and [store] and [storeLessons] write to the
    same keys: after any sequence of calls on a fresh [MemorySystem],
    [retrieve] returns the value of the last call that stored under the
    key, by [store] or as the lessons of a type, if that value is truthy,
    and [null] if it is falsy or nothing was stored. *)
Theorem retrieve_last_stored (calls : list call) (key : string) :
  retrieve (run calls new) key
  = Normal (match last (omap (stored key) calls) with
            | Some v => if truthy v then v else Null
            | None => Null
            end).
Proof.
  rewrite retrieve_lookup, run_storage. by destruct (last _).
Qed.

(** *** More on the context store *)

Lemma set_property_lookup (result : gmap string value) (key : string)
    (v : value) (k : string) :
  set_property result key v !! k
  = if decide (k = "__proto__") then result !! k
    else if decide (k = key) then Some v else result !! k.
Proof.
  unfold set_property. repeat case_decide; subst; try done.
  - by rewrite lookup_insert_ne.
  - by rewrite lookup_insert_eq.
  - by rewrite lookup_insert_ne.
Qed.

Lemma getContext_loop (entries : list (string * value))
    (acc : gmap string value) :
  NoDup entries.*1 →
  ∃ result,
    for_of entries acc
      (λ result entry, Normal (set_property result entry.1 entry.2))
    = Normal result
    ∧ ∀ k, result !! k
           = if decide (k = "__proto__") then acc !! k
             else match (list_to_map entries : gmap string value) !! k with
                  | Some v => Some v
                  | None => acc !! k
                  end.
Proof.
  revert acc. induction entries as [|[key v] entries IH]; intros acc Hnd.
  - exists acc. split; [done|]. intros k. by case_decide.
  - apply NoDup_cons in Hnd as [Hkey Hnd]. simpl.
    destruct (IH (set_property acc key v) Hnd) as (result & -> & Hresult).
    exists result. split; [done|]. intros k.
    rewrite Hresult, set_property_lookup.
    case_decide as Hproto; [done|].
    destruct (decide (k = key)) as [->|Hne].
    + rewrite lookup_insert_eq.
      by rewrite (not_elem_of_list_to_map_1 entries key).
    + by rewrite lookup_insert_ne.
Qed.

(** The snapshot has the entries of the context, but for [__proto__]. *)
Lemma getContext_delete (this : MemorySystem) :
  getContext this = Normal (Object (delete "__proto__" (context this))).
Proof.
  unfold getContext.
  destruct (getContext_loop (map_to_list (context this)) ∅)
    as (result & -> & Hresult); [apply NoDup_fst_map_to_list|].
  simpl. do 2 f_equal. apply map_eq. intros k.
  rewrite Hresult, list_to_map_to_list, lookup_empty.
  case_decide as Hproto.
  - subst. by rewrite lookup_delete_eq.
  - rewrite lookup_delete_ne by done. by destruct (context this !! k).
Qed.

(** X21. [getContext] never throws.  The object it returns has as own
    properties the entries of the context other than the one under
    [__proto__], each with its value; [__proto__] is never an own key of
    it. *)
Theorem getContext_snapshot (this : MemorySystem) :
  ∃ snapshot : gmap string value,
    getContext this = Normal (Object snapshot)
    ∧ (∀ k, k ≠ "__proto__" → snapshot !! k = context this !! k)
    ∧ snapshot !! "__proto__" = None.
Proof.
  eexists. split; [apply getContext_delete|]. split.
  - intros k Hk. by apply lookup_delete_ne.
  - apply lookup_delete_eq.
Qed.

Lemma getContext_snapshot_witness :
  let this := setContext (setContext new "__proto__" express) "region" (String "eu") in
  ∃ snapshot : gmap string value,
    getContext this = Normal (Object snapshot)
    ∧ snapshot !! "region" = context this !! "region"
    ∧ context this !! "__proto__" = Some express
    ∧ snapshot !! "__proto__" = None.
Proof.
  intros this.
  destruct (getContext_snapshot this) as (snapshot & Hget & Hother & Hproto).
  exists snapshot. split_and!; [exact Hget| |by vm_compute|exact Hproto].
  apply Hother. discriminate.
Defined.

(** X22. [getContext] after [setContext]: the snapshot is the one from
    before with the key set to the value, except that setting [__proto__]
    leaves the snapshot as it was. *)
Theorem getContext_setContext (this : MemorySystem) (key : string) (v : value) :
  ∃ snapshot : gmap string value,
    getContext this = Normal (Object snapshot)
    ∧ getContext (setContext this key v)
      = Normal (Object (if decide (key = "__proto__") then snapshot
                        else <[key := v]> snapshot)).
Proof.
  eexists. split; [apply getContext_delete|].
  rewrite getContext_delete. simpl. do 2 f_equal.
  case_decide as Hkey.
  - subst. by rewrite delete_insert_eq.
  - by rewrite delete_insert_ne.
Qed.

(** X23. [getContext] after [clearContext]: with the key omitted, or
    given as the empty string, the snapshot is the empty object; with any
    other key it is the snapshot from before without that key. *)
Theorem getContext_clearContext (this : MemorySystem) (key : option string) :
  ∃ snapshot : gmap string value,
    getContext this = Normal (Object snapshot)
    ∧ getContext (clearContext this key)
      = Normal (Object (match key with
                        | None | Some "" => ∅
                        | Some k => delete k snapshot
                        end)).
Proof.
  eexists. split; [apply getContext_delete|].
  rewrite getContext_delete. do 2 f_equal.
  destruct key as [k|]; [|apply delete_empty].
  destruct (decide (k = "")) as [->|Hk]; [apply delete_empty|].
  rewrite clearContext_key by done.
  transitivity (delete k (delete "__proto__" (context this)));
    [apply delete_delete|].
  destruct k as [|a k]; [done|reflexivity].
Qed.

Lemma perform_context (this : MemorySystem) (c : call) :
  writes_context c = false → context (perform this c) = context this.
Proof. by destruct c. Qed.

Lemma run_context (calls : list call) (this : MemorySystem) :
  Forall (λ c, writes_context c = false) calls →
  context (run calls this) = context this.
Proof.
  intros Hall. revert this.
  induction Hall as [|c calls Hc _ IH]; intros this; [done|].
  unfold run in *. cbn [foldl]. by rewrite IH, perform_context.
Qed.

(** X24. Only [setContext] and [clearContext] change the context: after
    any calls of the other methods, [getContext] returns the same
    snapshot. *)
Theorem getContext_frame (this : MemorySystem) (calls : list call) :
  Forall (λ c, writes_context c = false) calls →
  getContext (run calls this) = getContext this.
Proof. intros Hall. by rewrite !getContext_delete, run_context. Qed.

Lemma getContext_frame_witness :
  let calls :=
    [ Initialize; Store "region" Null; LearnSuccess "region" express 5000;
      LearnFailure "region" express "crash" 6000;
      StorePattern "web" Null 7000; StoreLessons "region" (String "x") ] in
  Forall (λ c, writes_context c = false) calls
  ∧ getContext (run calls sample) = getContext sample.
Proof.
  intros calls.
  assert (H : Forall (λ c, writes_context c = false) calls)
    by (repeat constructor).
  split; [exact H|]. exact (getContext_frame sample calls H).
Defined.

(** *** Initialisation *)

Lemma perform_initialized (this : MemorySystem) (c : call) :
  initialized (perform this c) = initialized this || is_Initialize c.
Proof. destruct c; simpl; by rewrite ?orb_true_r, ?orb_false_r. Qed.

(** X25. The instance is initialised after a sequence of calls exactly
    when it was before or [initialize] is among the calls: no method takes
    the flag back, and no other method sets it. *)
Theorem isInitialized_run (calls : list call) (this : MemorySystem) :
  isInitialized (run calls this)
  = isInitialized this || existsb is_Initialize calls.
Proof.
  unfold isInitialized. revert this.
  induction calls as [|c calls IH]; intros this; simpl.
  - by rewrite orb_false_r.
  - unfold run in *. cbn [foldl]. by rewrite IH, perform_initialized, orb_assoc.
Qed.

(** *** The threshold and the number of keys *)

Lemma set_similarity_under_half (A B : gset string) :
  2 * (size A `min` size B) < size A `max` size B →
  (set_similarity A B < 1 # 2)%Q.
Proof.
  intros Hsize.
  destruct (decide (A = ∅)) as [->|HA], (decide (B = ∅)) as [->|HB].
  - rewrite size_empty in Hsize. simpl in Hsize. lia.
  - by rewrite set_similarity_empty_l.
  - by rewrite set_similarity_empty_r.
  - rewrite set_similarity_both_nonempty by done.
    pose proof (size_eqb_nonempty A HA) as HsA%Nat.eqb_neq.
    pose proof (subseteq_size _ _ (intersection_subseteq_l A B)) as HlA.
    pose proof (subseteq_size _ _ (intersection_subseteq_r A B)) as HlB.
    apply Qlt_shift_div_r.
    + unfold Qlt. simpl. lia.
    + unfold Qlt. simpl. lia.
Qed.

(** X26. When one of two configurations has more than twice as many keys
    as the other, their similarity is under 1/2, however many keys they
    share: a candidate is never recommended a pattern with more than twice
    its number of keys, nor one with fewer than half. *)
Theorem calculateSimilarity_under_half (a b : value) (A B : gset string) :
  key_set a = Some A → key_set b = Some B →
  2 * (size A `min` size B) < size A `max` size B →
  ∃ similarity : number,
    calculateSimilarity a b = Normal similarity ∧ (similarity < 1 # 2)%Q.
Proof.
  intros HA HB Hsize. exists (set_similarity A B).
  split; [by apply calculateSimilarity_sets|by apply set_similarity_under_half].
Qed.

Lemma calculateSimilarity_under_half_witness :
  let b := Object (<[ "framework" := String "express" ]>
                     (<[ "db" := String "postgres" ]> {[ "cache" := Null ]})) in
  key_set express = Some {[ "framework" ]}
  ∧ key_set b = Some {[ "framework"; "db"; "cache" ]}
  ∧ 2 * (size ({[ "framework" ]} : gset string)
           `min` size ({[ "framework"; "db"; "cache" ]} : gset string))
    < size ({[ "framework" ]} : gset string)
        `max` size ({[ "framework"; "db"; "cache" ]} : gset string)
  ∧ ∃ similarity : number,
      calculateSimilarity express b = Normal similarity
      ∧ (similarity < 1 # 2)%Q.
Proof.
  intros b.
  assert (Ha : key_set express = Some {[ "framework" ]})
    by (vm_compute; reflexivity).
  assert (Hb : key_set b = Some {[ "framework"; "db"; "cache" ]})
    by (vm_compute; reflexivity).
  assert (Hs : 2 * (size ({[ "framework" ]} : gset string)
           `min` size ({[ "framework"; "db"; "cache" ]} : gset string))
    < size ({[ "framework" ]} : gset string)
        `max` size ({[ "framework"; "db"; "cache" ]} : gset string))
    by (vm_compute; lia).
  split_and!; [exact Ha|exact Hb|exact Hs|].
  exact (calculateSimilarity_under_half express b _ _ Ha Hb Hs).
Defined.
